(** * A shallow embedding of the ETL pipeline of [src/main.py]

    The pipeline loads three delimited files into pandas data frames,
    cleans them, derives the spending of every customer, joins it onto the
    users and stores the three tables in PostgreSQL.  The data frame
    operations the program calls ([drop_duplicates], [groupby], [merge],
    [fillna], the [.str] accessor) are modelled here as executable
    functions on an untyped table; every function of [main.py] is then
    transcribed call by call on top of them, under its own name. *)

From Stdlib Require Import ZArith Lia Ascii String.
From stdpp Require Import prelude strings lexico sorting gmap.

#[local] Set Warnings "-clear-no-such-hyp".

Local Open Scope Z_scope.
Local Open Scope string_scope.
Local Open Scope list_scope.

(** ** Python values and exceptions *)

(** A cell of a data frame.  Numbers are integers here (the program only
    adds them and compares them with each other); [VNaN] is the missing
    value pandas writes for an empty field and for an unmatched join. *)
Inductive scalar : Type :=
  | VInt (z : Z)
  | VStr (s : string)
  | VNaN.

#[global] Instance scalar_eq_dec : EqDecision scalar.
Proof. solve_decision. Defined.

Definition isna (v : scalar) : bool :=
  match v with VNaN => true | _ => false end.

(** The exceptions the modelled code can raise, with the argument Python
    reports. *)
Inductive exn : Type :=
  | KeyError (key : string)
  | AttributeError (attribute : string)
  | TypeError (what : string)
  | ParserError (what : string)
  | MissingSectionHeaderError (line : string)
  | DuplicateSectionError (section : string)
  | DuplicateOptionError (section option_name : string)
  | ParsingError (lines : list string)
  | InterpolationSyntaxError (option_name section : string)
  | InterpolationMissingOptionError (option_name section reference : string)
  | InterpolationDepthError (option_name section : string)
  | InvalidToken
  | ValueError (what : string)
  | FileNotFoundError (path : string)
  | UnicodeDecodeError
  | ArgumentError (what : string)
  | OperationalError (what : string)
  | ProgrammingError (what : string)
  | IntegrityError (what : string).

#[global] Instance exn_eq_dec : EqDecision exn.
Proof. solve_decision. Defined.

(** A computation either returns or raises. *)
Inductive result (A : Type) : Type :=
  | Ok (a : A)
  | Raise (e : exn).
Arguments Ok {A} a.
Arguments Raise {A} e.

Definition bind {A B} (m : result A) (k : A -> result B) : result B :=
  match m with
  | Ok a => k a
  | Raise e => Raise e
  end.

(** [result] is a monad; stdpp's [x ← m; k] sequences two calls and stops
    at the first exception. *)
#[global] Instance result_ret : MRet result := @Ok.
#[global] Instance result_bind : MBind result :=
  fun A B k m => bind m k.
#[global] Instance result_fmap : FMap result :=
  fun A B f m => bind m (fun a => Ok (f a)).

Definition raises {A} (m : result A) : Prop :=
  match m with Ok _ => False | Raise _ => True end.

(** ** Data frames *)

Definition row : Type := list scalar.

(** A data frame: the column labels in order and the rows in order.  The
    row labels (the index) are not modelled; no function of the program
    reads them. *)
Record DataFrame : Type := mkDF {
  columns : list string;
  rows : list row
}.

#[global] Instance DataFrame_eq_dec : EqDecision DataFrame.
Proof. solve_decision. Defined.

(** Every row has one cell per column. *)
Definition wf_df (df : DataFrame) : Prop :=
  Forall (fun r : row => length r = length (columns df)) (rows df).

(** [len(df)] *)
Definition len (df : DataFrame) : Z := Z.of_nat (length (rows df)).

(** Position of the first column with the given label. *)
Fixpoint col_index (name : string) (cols : list string) : option nat :=
  match cols with
  | [] => None
  | c :: cols' =>
      if decide (c = name) then Some O else S <$> col_index name cols'
  end.

(** The cell of a row at a position; a short row reads as missing. *)
Definition cell (i : nat) (r : row) : scalar := default VNaN (r !! i).

(** The rows whose cell at position [i] is [k] are selected with
    [filter (has_key i k)]. *)
Definition has_key (i : nat) (k : scalar) (r : row) : Prop := cell i r = k.

#[global] Instance has_key_dec i k r : Decision (has_key i k r).
Proof. unfold has_key; apply _. Defined.

(** ** Logging *)

Inductive level : Type := INFO | WARNING | ERROR.

(** What the program writes to its log, one constructor per message. *)
Inductive log_record : Type :=
  | LogFileMissing (path : string)
  | LogLoaded (records : Z) (path : string)
  | LogLoadError (path : string) (e : exn)
  | LogDateConverted
  | LogDateColumnMissing
  | LogRemoved (removed remaining : Z) (df_name : string)
  | LogExampleRows (df_name : string) (head : DataFrame)
  | LogNotLoaded (df_name : string)
  | LogSaved (table_name : string)
  | LogPrimaryKey (pk_columns table_name : string)
  | LogConnected (database host : string).

Definition level_of (l : log_record) : level :=
  match l with
  | LogFileMissing _ | LogLoadError _ _ => ERROR
  | LogDateColumnMissing | LogNotLoaded _ => WARNING
  | _ => INFO
  end.

(** ** The state of a run *)

(** A table of the database: its content and the primary key declared on
    it, if any. *)
Record table : Type := mkTable {
  tbl_frame : DataFrame;
  tbl_primary_key : option (list string)
}.

(** What a run of the program leaves behind: the records it logged, in
    order, and the tables of the database. *)
Record state : Type := mkState {
  log : list log_record;
  tables : gmap string table
}.

(** A function of the program that logs or writes to the database: from
    a state it returns or raises, and leaves a state either way. *)
Record Py (A : Type) : Type := mkPy { run : state -> result A * state }.
Arguments mkPy {A} run.
Arguments run {A} p st.

#[global] Instance Py_ret : MRet Py :=
  fun A a => mkPy (fun st => (Ok a, st)).
#[global] Instance Py_bind : MBind Py :=
  fun A B k m =>
    mkPy (fun st =>
            match run m st with
            | (Ok a, st') => run (k a) st'
            | (Raise e, st') => (Raise e, st')
            end).

#[global] Instance Py_fmap : FMap Py :=
  fun A B f m =>
    mkPy (fun st =>
            match run m st with
            | (Ok a, st') => (Ok (f a), st')
            | (Raise e, st') => (Raise e, st')
            end).

(** A call that neither logs nor writes. *)
Definition lift {A} (m : result A) : Py A := mkPy (fun st => (m, st)).

(** [logging.info], [logging.warning] and [logging.error] *)
Definition logging (r : log_record) : Py unit :=
  mkPy (fun st => (Ok tt, mkState (log st ++ [r]) (tables st))).

(** [try: body except Exception as e: handler(e)] *)
Definition try_except {A} (body : Py A) (handler : exn -> Py A) : Py A :=
  mkPy (fun st =>
          match run body st with
          | (Ok a, st') => (Ok a, st')
          | (Raise e, st') => run (handler e) st'
          end).

(** ** [DataFrame.drop_duplicates] and [remove_duplicates] *)

(** [df.drop_duplicates()] with its defaults ([subset=None], all columns;
    [keep='first']): one pass over the rows that keeps a row unless an
    equal row was met before.  Missing values compare equal to each
    other here, as they do in pandas' duplicate detection. *)
Fixpoint drop_seen (seen : list row) (l : list row) : list row :=
  match l with
  | [] => []
  | r :: l' =>
      if decide (r ∈ seen) then drop_seen seen l'
      else r :: drop_seen (r :: seen) l'
  end.

Definition drop_duplicates (df : DataFrame) : DataFrame :=
  mkDF (columns df) (drop_seen [] (rows df)).

(** [remove_duplicates(df, df_name)] *)
Definition remove_duplicates (df : DataFrame) (df_name : string) : Py DataFrame :=
  let before := len df in
  let df := drop_duplicates df in
  let after := len df in
  logging (LogRemoved (before - after) after df_name);;
  mret df.

(** The rows of the input that are a first occurrence, in input order:
    what the specification asks deduplication to leave. *)
Definition first_occurrences (l : list row) : list row :=
  (filter (fun ir : nat * row => ir.2 ∉ take ir.1 l)
          (zip (seq 0 (length l)) l)).*2.

(** ** [DataFrame.groupby] *)

(** The byte values of a string; Python orders strings by code point,
    which is the order of their UTF-8 bytes. *)
Definition codes (s : string) : list N :=
  N_of_ascii <$> list_ascii_of_string s.

(** The order in which [groupby] (with its default [sort=True]) lists the
    group keys: numbers by value, strings by code point, and numbers
    before strings when a column holds both.  A missing value is never a
    group key. *)
Definition scalar_lt (a b : scalar) : Prop :=
  match a, b with
  | VInt x, VInt y => x < y
  | VInt _, VStr _ => True
  | VStr s, VStr t => lexico (codes s) (codes t)
  | _, _ => False
  end.

#[global] Instance scalar_lt_dec a b : Decision (scalar_lt a b).
Proof. destruct a, b; simpl; apply _. Defined.

(** The groups under construction: the keys ascending, each with its rows
    in input order. *)
Definition grouping : Type := list (scalar * list row).

Fixpoint add_to_group (k : scalar) (r : row) (gs : grouping) : grouping :=
  match gs with
  | [] => [(k, [r])]
  | (k', rs) :: gs' =>
      if decide (k = k') then (k', r :: rs) :: gs'
      else if decide (scalar_lt k k') then (k, [r]) :: gs
      else (k', rs) :: add_to_group k r gs'
  end.

(** [df.groupby(key)] on the key column at position [i], with the
    defaults [sort=True] and [dropna=True]: rows whose key is missing
    belong to no group. *)
Fixpoint group_rows (i : nat) (l : list row) : grouping :=
  match l with
  | [] => []
  | r :: l' =>
      let gs := group_rows i l' in
      if isna (cell i r) then gs else add_to_group (cell i r) r gs
  end.

(** Python's [+] on two cells. *)
Definition add_scalar (a b : scalar) : result scalar :=
  match a, b with
  | VInt x, VInt y => Ok (VInt (x + y))
  | VStr s, VStr t => Ok (VStr (s +:+ t))
  | _, _ => Raise (TypeError "unsupported operand type(s) for +")
  end.

Fixpoint sum_from (acc : scalar) (l : list scalar) : result scalar :=
  match l with
  | [] => Ok acc
  | v :: l' => acc' ← add_scalar acc v; sum_from acc' l'
  end.

(** The [sum] of the cells of one group: missing values are skipped
    ([skipna]), and a group with nothing to add sums to 0
    ([min_count=0]). *)
Definition sum_cells (l : list scalar) : result scalar :=
  match filter (fun v => v <> VNaN) l with
  | [] => Ok (VInt 0)
  | v :: l' => sum_from v l'
  end.

(** The ['last'] aggregation of one group: the last value that is not
    missing, and missing when there is none. *)
Definition last_valid (l : list scalar) : scalar :=
  default VNaN (last (filter (fun v => v <> VNaN) l)).

(** [df.groupby(key, as_index=False)[col].sum()] *)
Definition groupby_sum (key col : string) (df : DataFrame) : result DataFrame :=
  match col_index key (columns df) with
  | None => Raise (KeyError key)
  | Some i =>
      match col_index col (columns df) with
      | None => Raise (KeyError ("Column not found: " +:+ col))
      | Some j =>
          rs ← mapM (fun g : scalar * list row =>
                       total ← sum_cells (cell j <$> g.2); Ok [g.1; total])
                    (group_rows i (rows df));
          Ok (mkDF [key; col] rs)
      end
  end.

(** [df.groupby(key).agg({c: 'last' for c in cols}).reset_index()]: one
    row per group, holding the key and then the aggregated columns in the
    order of the dictionary. *)
Definition groupby_agg_last (key : string) (cols : list string) (df : DataFrame)
  : result DataFrame :=
  match col_index key (columns df) with
  | None => Raise (KeyError key)
  | Some i =>
      js ← mapM (fun c => match col_index c (columns df) with
                          | Some j => Ok j
                          | None => Raise (KeyError ("Column(s) do not exist: " +:+ c))
                          end) cols;
      Ok (mkDF (key :: cols)
               ((fun g : scalar * list row =>
                   g.1 :: ((fun j => last_valid (cell j <$> g.2)) <$> js))
                <$> group_rows i (rows df)))
  end.

(** [df.rename(columns={old: new}, inplace=True)] *)
Definition rename_column (old new : string) (df : DataFrame) : DataFrame :=
  mkDF ((fun c => if decide (c = old) then new else c) <$> columns df) (rows df).

(** ** [pandas.merge] and [fillna] *)

(** The label a column of one side carries in the merged frame: the
    suffix is added when the other side has a column of the same label
    that is not the join key. *)
Definition merged_label (on suffix : string) (other : list string) (c : string)
  : string :=
  if decide (c <> on /\ c ∈ other) then c +:+ suffix else c.

(** [pd.merge(left, right, on=on, how='left')]: the rows of [left] in
    their order, each followed by the cells of every row of [right] with
    an equal key (in the order of [right]), or by missing values when no
    row of [right] has that key.  Missing keys match each other. *)
Definition merge_left (on : string) (left right : DataFrame) : result DataFrame :=
  match col_index on (columns left), col_index on (columns right) with
  | Some i, Some j =>
      Ok (mkDF
            ((merged_label on "_x" (columns right) <$> columns left) ++
             (merged_label on "_y" (columns left) <$> delete j (columns right)))
            (flat_map
               (fun l : row =>
                  match filter (has_key j (cell i l)) (rows right) with
                  | [] => [l ++ replicate (length (columns right) - 1) VNaN]
                  | ms => (fun r : row => l ++ delete j r) <$> ms
                  end)
               (rows left)))
  | _, _ => Raise (KeyError on)
  end.

(** [df[col] = df[col].fillna(value)] *)
Definition fillna_column (col : string) (value : scalar) (df : DataFrame)
  : result DataFrame :=
  match col_index col (columns df) with
  | None => Raise (KeyError col)
  | Some j =>
      Ok (mkDF (columns df)
               ((fun r : row => alter (fun v => if isna v then value else v) j r)
                <$> rows df))
  end.

(** ** The aggregation functions of [main.py] *)

(** [calculate_total_spending_per_user(transactions_df)] *)
Definition calculate_total_spending_per_user (transactions_df : DataFrame)
  : result DataFrame :=
  spending_per_user_df ← groupby_sum "Customer ID" "Total" transactions_df;
  Ok (rename_column "Total" "Total Spending" spending_per_user_df).

(** [add_total_spending_to_users(users_df, spending_per_user_df)] *)
Definition add_total_spending_to_users (users_df spending_per_user_df : DataFrame)
  : result DataFrame :=
  updated_users_df ← merge_left "Customer ID" users_df spending_per_user_df;
  fillna_column "Total Spending" (VInt 0) updated_users_df.

(** The user collapse of [ingest_data], applied there to the
    deduplicated users:
    [.groupby('Customer ID').agg({'Customer Name': 'last',
    'Customer Email': 'last'}).reset_index()] *)
Definition collapse_users (users_df : DataFrame) : result DataFrame :=
  groupby_agg_last "Customer ID" ["Customer Name"; "Customer Email"] users_df.

(** ** Reference definitions for the aggregation *)

(** The amount a cell contributes to a sum of numbers. *)
Definition amount (v : scalar) : Z :=
  match v with VInt z => z | _ => 0 end.

Definition number_or_na (v : scalar) : Prop :=
  match v with VStr _ => False | _ => True end.

#[global] Instance number_or_na_dec v : Decision (number_or_na v).
Proof. destruct v; simpl; apply _. Defined.

(** The sum of the cells at position [j] over the rows whose cell at
    position [i] is [k]. *)
Definition total_of (i j : nat) (k : scalar) (l : list row) : Z :=
  foldr Z.add 0 (amount ∘ cell j <$> filter (has_key i k) l).

(** The transactions of the specification's example and their
    aggregate. *)
Definition example_transactions : DataFrame :=
  mkDF ["Customer ID"; "Total"]
       [[VInt 1; VInt 100]; [VInt 2; VInt 200]; [VInt 2; VInt 200];
        [VInt 3; VInt 300]].

Definition example_spending : DataFrame :=
  mkDF ["Customer ID"; "Total Spending"]
       [[VInt 1; VInt 100]; [VInt 2; VInt 400]; [VInt 3; VInt 300]].

(** The users and the aggregate of the specification's merge example,
    and the merged table. *)
Definition example_users : DataFrame :=
  mkDF ["Customer ID"; "Customer Name"]
       [[VInt 1; VStr "Alice"]; [VInt 2; VStr "Bob"]; [VInt 3; VStr "Charlie"]].

Definition example_aggregate : DataFrame :=
  mkDF ["Customer ID"; "Total Spending"]
       [[VInt 1; VInt 100]; [VInt 2; VInt 200]].

Definition example_merged : DataFrame :=
  mkDF ["Customer ID"; "Customer Name"; "Total Spending"]
       [[VInt 1; VStr "Alice"; VInt 100]; [VInt 2; VStr "Bob"; VInt 200];
        [VInt 3; VStr "Charlie"; VInt 0]].

(** ** Reference definitions for the user collapse *)

(** [v] is the last cell at position [j] of the rows [g] that is not
    missing, or missing when every such cell is. *)
Definition last_present (j : nat) (g : list row) (v : scalar) : Prop :=
  (exists g1 r g2,
      g = g1 ++ r :: g2 /\ cell j r = v /\ v <> VNaN /\
      Forall (fun r' => cell j r' = VNaN) g2)
  \/ (v = VNaN /\ Forall (fun r' => cell j r' = VNaN) g).

(** The reading of the collapse that takes the whole last row of every
    customer: each output row repeats the id, the name and the e-mail of
    the last input row that has its customer id. *)
Definition keeps_last_row (df : DataFrame) : Prop :=
  exists (i jn je : nat) (out : DataFrame),
    col_index "Customer ID" (columns df) = Some i /\
    col_index "Customer Name" (columns df) = Some jn /\
    col_index "Customer Email" (columns df) = Some je /\
    collapse_users df = Ok out /\
    forall o : row, o ∈ rows out ->
      exists r : row,
        last (filter (has_key i (cell 0 o)) (rows df)) = Some r /\
        o = [cell i r; cell jn r; cell je r].

Definition user_columns : list string :=
  ["Customer ID"; "Customer Name"; "Customer Email"].

(** The two user records of the specification's example. *)
Definition example_duplicate_users : DataFrame :=
  mkDF user_columns
       [[VInt 1; VStr "A"; VStr "a@x"]; [VInt 1; VStr "B"; VStr "b@x"]].

(** Two records of one customer, the later one without an e-mail
    address (an empty field of the source file). *)
Definition users_missing_email : DataFrame :=
  mkDF user_columns
       [[VInt 1; VStr "A"; VStr "a@x"]; [VInt 1; VStr "B"; VNaN]].

(** Two customers listed in descending order of their ids, with a
    further column. *)
Definition users_descending : DataFrame :=
  mkDF ["Customer Name"; "Customer ID"; "Phone"; "Customer Email"]
       [[VStr "Bob"; VInt 2; VStr "555"; VStr "b@x"];
        [VStr "Nobody"; VNaN; VStr "000"; VStr "n@x"];
        [VStr "Alice"; VInt 1; VStr "444"; VStr "a@x"]].

(** ** Column labels: the [.str] accessor and [standardize_column_names] *)

(** [s.replace(pat, repl)] for a pattern of one character, which is how
    [Index.str.replace] treats the patterns [' '], ['('] and [')'] of the
    program: every occurrence is replaced, from left to right. *)
Fixpoint str_replace (pat : ascii) (repl : string) (s : string) : string :=
  match s with
  | EmptyString => EmptyString
  | String a s' =>
      if decide (a = pat) then repl +:+ str_replace pat repl s'
      else String a (str_replace pat repl s')
  end.

(** A character in lower case.  Strings are sequences of bytes here, and
    the letters with a lower-case form are A to Z. *)
Definition lower_ascii (a : ascii) : ascii :=
  let n := nat_of_ascii a in
  if ((65 <=? n) && (n <=? 90))%nat then ascii_of_nat (n + 32) else a.

(** [s.lower()] *)
Fixpoint str_lower (s : string) : string :=
  match s with
  | EmptyString => EmptyString
  | String a s' => String (lower_ascii a) (str_lower s')
  end.

(** What [standardize_column_names] does to one label:
    [.str.replace(' ', '_').str.replace('(', '').str.replace(')', '').str.lower()] *)
Definition standardize_label (c : string) : string :=
  str_lower (str_replace ")" "" (str_replace "(" "" (str_replace " " "_" c))).

(** [standardize_column_names(df)]; the program assigns the new labels
    to the frame it is given and returns that frame. *)
Definition standardize_column_names (df : DataFrame) : DataFrame :=
  mkDF (standardize_label <$> columns df) (rows df).

(** The standardised label as the specification words it, character by
    character: a space becomes an underscore, a parenthesis is removed,
    any other character is put in lower case. *)
Fixpoint standardized (s : string) : string :=
  match s with
  | EmptyString => EmptyString
  | String a s' =>
      if decide (a = " "%char) then String "_" (standardized s')
      else if decide (a = "("%char \/ a = ")"%char) then standardized s'
      else String (lower_ascii a) (standardized s')
  end.

Definition is_upper (a : ascii) : Prop :=
  (65 <= nat_of_ascii a <= 90)%nat.

(** ** [configparser.ConfigParser]

    [read_db_config] builds a [ConfigParser()] with every default
    (delimiters [=] and [:], comment prefixes [#] and [;], no inline
    comments, [strict], empty lines allowed in values, default section
    [DEFAULT], basic interpolation, option names in lower case), reads
    the decrypted text into it and looks five options up.  This is the
    parser's reading loop ([RawConfigParser._read]) and its lookup, with
    strings as sequences of bytes. *)
Module configparser.

(** [c.isspace()] on the ASCII range. *)
Definition isspace (a : ascii) : bool :=
  let n := nat_of_ascii a in
  (((9 <=? n) && (n <=? 13)) || ((28 <=? n) && (n <=? 32)))%nat.

Fixpoint lstrip (s : string) : string :=
  match s with
  | EmptyString => EmptyString
  | String a s' => if isspace a then lstrip s' else s
  end.

Definition rstrip (s : string) : string := String.rev (lstrip (String.rev s)).

Definition strip (s : string) : string := rstrip (lstrip s).

(** The lines of a text, as iterating over [io.StringIO(text)] yields
    them, without their final line feed. *)
Fixpoint readlines_go (cur : string) (s : string) : list string :=
  match s with
  | EmptyString => if decide (cur = "") then [] else [String.rev cur]
  | String a s' =>
      if decide (a = "010"%char) then String.rev cur :: readlines_go "" s'
      else readlines_go (String a cur) s'
  end.

Definition readlines (s : string) : list string := readlines_go "" s.

(** Position of the first character that is not white space
    ([NONSPACECRE.search(line).start()]), 0 when there is none. *)
Fixpoint first_nonspace (s : string) : nat :=
  match s with
  | EmptyString => O
  | String a s' =>
      if isspace a then
        match lstrip s' with EmptyString => O | _ => S (first_nonspace s') end
      else O
  end.

Fixpoint after_bracket (s : string) : option string :=
  match s with
  | EmptyString => None
  | String a s' => if decide (a = "]"%char) then Some s' else after_bracket s'
  end.

(** [SECTCRE.match(value)], the pattern being [\[(?P<header>.+)\]]: the
    line opens with a bracket and the header runs up to its last closing
    bracket; what follows that bracket is ignored. *)
Definition section_header (value : string) : option string :=
  match value with
  | String "["%char rest =>
      match after_bracket (String.rev rest) with
      | Some h => if decide (h = "") then None else Some (String.rev h)
      | None => None
      end
  | _ => None
  end.

(** [OPTCRE.match(value)]: the text before the first [=] or [:] and the
    text after it. *)
Fixpoint option_line (value : string) : option (string * string) :=
  match value with
  | EmptyString => None
  | String a s' =>
      if decide (a = "="%char \/ a = ":"%char) then Some (EmptyString, s')
      else '(o, v) ← option_line s'; Some (String a o, v)
  end.

(** The state of the reading loop.  The values are kept as lists of
    lines until the end of the text. *)
Record reader : Type := mkReader {
  r_defaults : gmap string (list string);
  r_sections : gmap string (gmap string (list string));
  added_sections : gset string;
  added_options : gset (string * string);
  sectname : option string;
  optname : option string;
  indent_level : nat;
  bad_lines : list string
}.

Definition default_section : string := "DEFAULT".

(** [cursect[optname].append(value)] *)
Definition append_value (st : reader) (sect opt value : string) : reader :=
  if decide (sect = default_section) then
    mkReader (alter (fun ls => ls ++ [value]) opt (r_defaults st)) (r_sections st)
             (added_sections st) (added_options st) (sectname st) (optname st)
             (indent_level st) (bad_lines st)
  else
    mkReader (r_defaults st)
             (alter (alter (fun ls => ls ++ [value]) opt) sect (r_sections st))
             (added_sections st) (added_options st) (sectname st) (optname st)
             (indent_level st) (bad_lines st).

(** [cursect[optname] = [optval]] *)
Definition set_value (st : reader) (sect opt value : string) : reader :=
  mkReader
    (if decide (sect = default_section) then <[opt := [value]]> (r_defaults st)
     else r_defaults st)
    (if decide (sect = default_section) then r_sections st
     else alter (insert opt [value]) sect (r_sections st))
    (added_sections st) ({[ (sect, opt) ]} ∪ added_options st)
    (sectname st) (Some opt) (indent_level st) (bad_lines st).

(** The current option, when there is a current section and [optname]
    is a non-empty string. *)
Definition current_option (st : reader) : option (string * string) :=
  match sectname st, optname st with
  | Some sect, Some opt => if decide (opt = "") then None else Some (sect, opt)
  | _, _ => None
  end.

(** A section header line. *)
Definition read_header (st : reader) (name : string) : result reader :=
  if decide (name ∈ dom (r_sections st)) then
    if decide (name ∈ added_sections st) then Raise (DuplicateSectionError name)
    else Ok (mkReader (r_defaults st) (r_sections st)
                      ({[ name ]} ∪ added_sections st) (added_options st)
                      (Some name) None (indent_level st) (bad_lines st))
  else if decide (name = default_section) then
    Ok (mkReader (r_defaults st) (r_sections st) (added_sections st)
                 (added_options st) (Some name) None (indent_level st)
                 (bad_lines st))
  else
    Ok (mkReader (r_defaults st) (<[name := ∅]> (r_sections st))
                 ({[ name ]} ∪ added_sections st) (added_options st)
                 (Some name) None (indent_level st) (bad_lines st)).

Definition with_bad_line (st : reader) (line : string) : reader :=
  mkReader (r_defaults st) (r_sections st) (added_sections st)
           (added_options st) (sectname st) (optname st) (indent_level st)
           (bad_lines st ++ [line]).

(** A line that is neither a continuation nor a header, in section
    [sect]. *)
Definition read_option (st : reader) (sect line value : string) : result reader :=
  match option_line value with
  | Some (o, v) =>
      let st := if decide (rstrip o = "") then with_bad_line st line else st in
      let opt := str_lower (rstrip o) in
      if decide ((sect, opt) ∈ added_options st)
      then Raise (DuplicateOptionError sect opt)
      else Ok (set_value st sect opt (strip v))
  | None => Ok (with_bad_line st line)
  end.

(** One turn of the loop of [_read]. *)
Definition read_line (st : reader) (line : string) : result reader :=
  let stripped := strip line in
  let is_comment :=
    match stripped with
    | String c _ => bool_decide (c = "#"%char \/ c = ";"%char)
    | EmptyString => false
    end in
  let value := if is_comment then "" else stripped in
  if decide (value = "") then
    match current_option st with
    | Some (sect, opt) =>
        if is_comment then Ok st else Ok (append_value st sect opt "")
    | None => Ok st
    end
  else
    let cur_indent_level := first_nonspace line in
    match current_option st with
    | Some (sect, opt) =>
        if decide (indent_level st < cur_indent_level)%nat
        then Ok (append_value st sect opt value)
        else
          let st := mkReader (r_defaults st) (r_sections st) (added_sections st)
                             (added_options st) (sectname st) (optname st)
                             cur_indent_level (bad_lines st) in
          match section_header value with
          | Some name => read_header st name
          | None => read_option st sect line value
          end
    | None =>
        let st := mkReader (r_defaults st) (r_sections st) (added_sections st)
                           (added_options st) (sectname st) (optname st)
                           cur_indent_level (bad_lines st) in
        match section_header value with
        | Some name => read_header st name
        | None =>
            match sectname st with
            | None => Raise (MissingSectionHeaderError line)
            | Some sect => read_option st sect line value
            end
        end
    end.

Fixpoint read_lines (st : reader) (lines : list string) : result reader :=
  match lines with
  | [] => Ok st
  | line :: lines' => st' ← read_line st line; read_lines st' lines'
  end.

(** A parser after reading: the options of the default section and of
    the other sections, each value joined into one string. *)
Record ConfigParser : Type := mkConfigParser {
  cp_defaults : gmap string string;
  cp_sections : gmap string (gmap string string)
}.

(** ['\n'.join(val).rstrip()] *)
Definition join_value (ls : list string) : string :=
  rstrip (String.concat (String "010"%char "") ls).

Definition initial_reader : reader :=
  mkReader ∅ ∅ ∅ ∅ None None 0 [].

(** The end of [_read]: the values are joined, and the lines that could
    not be parsed, if any, are reported in one exception. *)
Definition finish_read (st : reader) : result ConfigParser :=
  match bad_lines st with
  | [] => Ok (mkConfigParser (join_value <$> r_defaults st)
                             (fmap (M := gmap string) join_value <$> r_sections st))
  | bad => Raise (ParsingError bad)
  end.

(** [config = ConfigParser(); config.read_string(text)] *)
Definition read_string (text : string) : result ConfigParser :=
  st ← read_lines initial_reader (readlines text); finish_read st.

(** [MAX_INTERPOLATION_DEPTH] *)
Definition MAX_INTERPOLATION_DEPTH : nat := 10.

Fixpoint contains (c : ascii) (s : string) : bool :=
  match s with
  | EmptyString => false
  | String a s' => bool_decide (a = c) || contains c s'
  end.

(** The loop of [BasicInterpolation._interpolate_some]: [%%] stands for
    a percent sign, [%(name)s] for the interpolated value of the option
    [name] of the same section (or of the default section); any other
    use of [%] is an error.  [nested] interpolates the value of a
    referenced option, one level deeper; [name] holds, in reverse, the
    characters of a reference being read. *)
Fixpoint interpolate_loop (nested : string -> result string)
    (d : gmap string string) (option_name section : string)
    (rest : string) (name : option string) : result string :=
  match name, rest with
  | None, EmptyString => Ok EmptyString
  | None, String "%"%char (String "%"%char rest') =>
      tail ← interpolate_loop nested d option_name section rest' None;
      Ok (String "%"%char tail)
  | None, String "%"%char (String "("%char rest') =>
      interpolate_loop nested d option_name section rest' (Some EmptyString)
  | None, String "%"%char _ =>
      Raise (InterpolationSyntaxError option_name section)
  | None, String c rest' =>
      tail ← interpolate_loop nested d option_name section rest' None;
      Ok (String c tail)
  | Some acc, String ")"%char (String "s"%char rest') =>
      if decide (acc = "") then
        Raise (InterpolationSyntaxError option_name section)
      else
        let var := str_lower (String.rev acc) in
        match d !! var with
        | None =>
            Raise (InterpolationMissingOptionError option_name section var)
        | Some v =>
            v' ← (if contains "%"%char v then nested v else Ok v);
            tail ← interpolate_loop nested d option_name section rest' None;
            Ok (v' +:+ tail)
        end
  | Some acc, String ")"%char _ =>
      Raise (InterpolationSyntaxError option_name section)
  | Some acc, String c rest' =>
      interpolate_loop nested d option_name section rest' (Some (String c acc))
  | Some acc, EmptyString =>
      Raise (InterpolationSyntaxError option_name section)
  end.

(** [_interpolate_some], with the number of nested references still
    allowed in place of the depth reached. *)
Fixpoint interpolate_some (depth_left : nat) (d : gmap string string)
    (option_name section : string) (rest : string) : result string :=
  match depth_left with
  | O => Raise (InterpolationDepthError option_name section)
  | S depth_left' =>
      interpolate_loop (interpolate_some depth_left' d option_name section)
                       d option_name section rest None
  end.

(** The options visible in a section: its own, and behind them those of
    the default section ([_unify_values]). *)
Definition unify_values (cp : ConfigParser) (section : string)
  : gmap string string :=
  default ∅ (cp_sections cp !! section) ∪ cp_defaults cp.

(** [config[section][option]]: [KeyError] when the parser has no such
    section, [KeyError] when neither the section nor the default section
    has the option, and else the interpolated value. *)
Definition getitem (cp : ConfigParser) (section option_name : string) : result string :=
  if decide (section <> default_section /\ cp_sections cp !! section = None)
  then Raise (KeyError section)
  else
    let d := unify_values cp section in
    match d !! str_lower option_name with
    | None => Raise (KeyError option_name)
    | Some value =>
        interpolate_some MAX_INTERPOLATION_DEPTH d (str_lower option_name) section value
    end.

End configparser.

(** ** [read_db_config] *)

(** The dictionary [read_db_config] returns. *)
Record db_config : Type := mk_db_config {
  user : string;
  password : string;
  host : string;
  port : string;
  database : string
}.

(** [read_db_config(decrypted_data)] *)
Definition read_db_config (decrypted_data : string) : result db_config :=
  config ← configparser.read_string decrypted_data;
  user ← configparser.getitem config "postgresql" "user";
  password ← configparser.getitem config "postgresql" "password";
  host ← configparser.getitem config "postgresql" "host";
  port ← configparser.getitem config "postgresql" "port";
  database ← configparser.getitem config "postgresql" "database";
  Ok (mk_db_config user password host port database).

(** ** The environment of a run *)

(** What the program reaches outside itself, through the operating
    system and through libraries that are not modelled here: the files,
    the CSV reader and the date parser of pandas, the Fernet cipher, and
    the database server.  Each call returns or raises. *)
Record Env : Type := mkEnv {
  (** [os.path.exists(path)] *)
  os_path_exists : string -> bool;
  (** [pd.read_csv(path, delimiter=delimiter)] *)
  pd_read_csv : string -> string -> result DataFrame;
  (** [pd.to_datetime(column, format='%m/%d/%y %H:%M')] *)
  pd_to_datetime : list scalar -> result (list scalar);
  (** [open(path, "rb").read()] *)
  open_read : string -> result string;
  (** [Fernet(key)], which gives [f.decrypt] *)
  Fernet : string -> result (string -> result string);
  (** [data.decode()] *)
  bytes_decode : string -> result string;
  (** [create_engine(url)] *)
  create_engine : string -> result unit;
  (** opening a connection of the engine of that URL *)
  engine_connect : string -> result unit
}.

(** ** Loading and cleaning: [load_tsv_file], [convert_date_format],
    [ingest_data] *)

(** [load_tsv_file(file_path, delimiter)]; [None] is the absent result. *)
Definition load_tsv_file (w : Env) (file_path delimiter : string)
  : Py (option DataFrame) :=
  if negb (os_path_exists w file_path) then
    logging (LogFileMissing file_path);;
    mret None
  else
    try_except
      (df ← lift (pd_read_csv w file_path delimiter);
       logging (LogLoaded (len df) file_path);;
       mret (Some df))
      (fun e =>
         logging (LogLoadError file_path e);;
         mret None).

(** [df[col] = values] on an existing column. *)
Definition set_column (j : nat) (values : list scalar) (df : DataFrame) : DataFrame :=
  mkDF (columns df)
       (zip_with (fun (r : row) (v : scalar) => <[j := v]> r) (rows df) values).

(** [convert_date_format(transactions_df)] *)
Definition convert_date_format (w : Env) (transactions_df : DataFrame)
  : Py DataFrame :=
  match col_index "Date (UTC)" (columns transactions_df) with
  | Some j =>
      dates ← lift (pd_to_datetime w (cell j <$> rows transactions_df));
      logging LogDateConverted;;
      mret (set_column j dates transactions_df)
  | None =>
      logging LogDateColumnMissing;;
      mret transactions_df
  end.

(** The default of the [delimiter] parameter. *)
Definition tab : string := String "009"%char "".

(** [ingest_data(products_file, transactions_file, users_file)] *)
Definition ingest_data (w : Env) (products_file transactions_file users_file : string)
  : Py (option DataFrame * option DataFrame * option DataFrame) :=
  products_df ← load_tsv_file w products_file tab;
  transactions_df ← load_tsv_file w transactions_file tab;
  users_df ← load_tsv_file w users_file tab;
  transactions_df ←
    match transactions_df with
    | Some df => Some <$> convert_date_format w df
    | None => mret None
    end;
  products_df ←
    match products_df with
    | Some df => Some <$> remove_duplicates df "products_df"
    | None => mret None
    end;
  transactions_df ←
    match transactions_df with
    | Some df => Some <$> remove_duplicates df "transactions_df"
    | None => mret None
    end;
  users_df ←
    match users_df with
    | Some df =>
        df ← remove_duplicates df "users_df";
        Some <$> lift (collapse_users df)
    | None => mret None
    end;
  mret (products_df, transactions_df, users_df).

(** [log_example_rows(df, df_name)], with [num_rows=5] *)
Definition log_example_rows (df : option DataFrame) (df_name : string) : Py unit :=
  match df with
  | Some df => logging (LogExampleRows df_name (mkDF (columns df) (take 5 (rows df))))
  | None => logging (LogNotLoaded df_name)
  end.

(** ** The database: [decrypt_config_file], [get_db_config],
    [get_postgres_engine], [save_to_postgres] *)

(** [decrypt_config_file(encrypted_file, key)] *)
Definition decrypt_config_file (w : Env) (encrypted_file key : string)
  : result string :=
  f_decrypt ← Fernet w key;
  encrypted_data ← open_read w encrypted_file;
  decrypted_data ← f_decrypt encrypted_data;
  bytes_decode w decrypted_data.

(** [get_db_config()] *)
Definition get_db_config (w : Env) : result db_config :=
  key ← open_read w "src/secret.key";
  decrypted_config ← decrypt_config_file w "src/config.ini.enc" key;
  read_db_config decrypted_config.

(** The engine of an URL. *)
Definition Engine : Type := string.

(** [get_postgres_engine()] *)
Definition get_postgres_engine (w : Env) : Py Engine :=
  db_config ← lift (get_db_config w);
  let url := "postgresql://" +:+ user db_config +:+ ":" +:+ password db_config
             +:+ "@" +:+ host db_config +:+ ":" +:+ port db_config
             +:+ "/" +:+ database db_config in
  lift (create_engine w url);;
  logging (LogConnected (database db_config) (host db_config));;
  mret url.

(** [df.to_sql(table_name, engine, if_exists='replace', index=False)] *)
Definition to_sql (w : Env) (engine : Engine) (df : DataFrame) (table_name : string)
  : Py unit :=
  lift (engine_connect w engine);;
  mkPy (fun st => (Ok tt, mkState (log st)
                                  (<[table_name := mkTable df None]> (tables st)))).

(** What the server checks before it accepts a primary key: the table
    has the columns of the key, none of them holds a missing value, and
    no two rows have the same values in them. *)
Definition check_primary_key (table_name : string) (pk : list string)
    (df : DataFrame) : result unit :=
  match mapM (M := option) (fun c => col_index c (columns df)) pk with
  | None => Raise (ProgrammingError table_name)
  | Some js =>
      let keys := (fun r : row => (fun j => cell j r) <$> js) <$> rows df in
      if decide (Forall (fun k : list scalar => VNaN ∉ k) keys /\ NoDup keys)
      then Ok tt
      else Raise (IntegrityError table_name)
  end.

(** [ALTER TABLE table_name ADD PRIMARY KEY (pk);] followed by the
    commit. *)
Definition add_primary_key (w : Env) (engine : Engine) (table_name : string)
    (pk : list string) : Py unit :=
  lift (engine_connect w engine);;
  mkPy (fun st =>
          match tables st !! table_name with
          | None => (Raise (ProgrammingError table_name), st)
          | Some t =>
              match check_primary_key table_name pk (tbl_frame t) with
              | Ok _ =>
                  (Ok tt,
                   mkState (log st)
                           (<[table_name := mkTable (tbl_frame t) (Some pk)]>
                              (tables st)))
              | Raise e => (Raise e, st)
              end
          end).

(** Reading an attribute of a value that may be [None]. *)
Definition getattr (v : option DataFrame) (attribute : string) : result DataFrame :=
  match v with
  | Some df => Ok df
  | None => Raise (AttributeError attribute)
  end.

(** [save_to_postgres(engine, df, table_name, primary_key)]; a key of
    one column is the list of that column. *)
Definition save_to_postgres (w : Env) (engine : Engine) (df : option DataFrame)
    (table_name : string) (primary_key : option (list string)) : Py unit :=
  df ← lift (standardize_column_names <$> getattr df "columns");
  to_sql w engine df table_name;;
  logging (LogSaved table_name);;
  match primary_key with
  | Some (c :: cs) =>
      let pk_columns := String.concat ", " (c :: cs) in
      add_primary_key w engine table_name (c :: cs);;
      logging (LogPrimaryKey pk_columns table_name)
  | _ => mret tt
  end.

(** ** The run of the pipeline *)

(** The [if __name__ == '__main__':] block of [main.py]. *)
Definition main (w : Env) : Py unit :=
  let products_file := "input/products.csv" in
  let transactions_file := "input/transactions.csv" in
  let users_file := "input/users.csv" in
  '(products_df, transactions_df, users_df) ←
    ingest_data w products_file transactions_file users_file;
  spending_per_user_df ←
    lift (df ← getattr transactions_df "groupby";
          calculate_total_spending_per_user df);
  updated_users_df ←
    lift (match users_df with
          | Some df => add_total_spending_to_users df spending_per_user_df
          | None => Raise (TypeError "Can only merge Series or DataFrame objects")
          end);
  log_example_rows (Some updated_users_df) "users_df";;
  engine ← get_postgres_engine w;
  save_to_postgres w engine products_df "dim_product"
                   (Some ["subscription_id"; "plan"]);;
  save_to_postgres w engine transactions_df "fct_transaction"
                   (Some ["transaction_id"]);;
  save_to_postgres w engine (Some updated_users_df) "dim_user"
                   (Some ["customer_id"]).

(** The loads of the three sources that return the absent result: the
    file does not exist, or reading it raises. *)
Definition absent (w : Env) (file_path : string) : Prop :=
  os_path_exists w file_path = false \/
  exists e, pd_read_csv w file_path tab = Raise e.

(** The run ends with an exception. *)
Definition crashes {A} (m : Py A) (st : state) : Prop :=
  raises (run m st).1.

(** ** Reference definitions for the configuration *)

(** The document has the required section with the five keys in it: the
    parser reads the document without error, into a parser that has a
    section [postgresql] with an option of each of the five names. *)
Definition has_connection_settings (doc : string) : bool :=
  match configparser.read_string doc with
  | Ok cp =>
      match configparser.cp_sections cp !! "postgresql" with
      | Some opts =>
          forallb (fun key : string =>
                     match opts !! key with Some _ => true | None => false end)
                  ["user"; "password"; "host"; "port"; "database"]
      | None => false
      end
  | Raise _ => false
  end.

(** The call returns, without an exception. *)
Definition returns {A} (m : result A) : Prop :=
  match m with Ok _ => True | Raise _ => False end.

(** The configuration of the repository's test. *)
Definition test_config : string :=
  "[postgresql]
user=postgres
password=secret
host=localhost
port=5432
database=test_db".

(** The same configuration with a percent sign in the password. *)
Definition config_with_percent : string :=
  "[postgresql]
user=postgres
password=s%cret
host=localhost
port=5432
database=test_db".

(** A configuration whose section lacks the user, which the default
    section supplies. *)
Definition config_with_default : string :=
  "[DEFAULT]
user=postgres
[postgresql]
password=secret
host=localhost
port=5432
database=test_db".

(** A run in which the transactions file is missing: the two other
    files are read, the configuration decrypts to the configuration of
    the test, and the database server accepts every connection. *)
Definition env_without_transactions : Env :=
  mkEnv (fun path => bool_decide (path <> "input/transactions.csv"))
        (fun path _ =>
           if decide (path = "input/products.csv")
           then Ok (mkDF ["Subscription ID"; "Plan"] [[VInt 1; VStr "basic"]])
           else if decide (path = "input/users.csv")
           then Ok (mkDF user_columns [[VInt 1; VStr "Alice"; VStr "a@x"]])
           else Raise (FileNotFoundError path))
        (fun dates => Ok dates)
        (fun path => Ok path)
        (fun key => Ok (fun token => Ok test_config))
        (fun data => Ok data)
        (fun url => Ok tt)
        (fun url => Ok tt).

(** The state before a run: nothing logged, no table. *)
Definition initial_state : state := mkState [] ∅.

(** ** Definitions for the further properties *)

Definition sum_amounts (j : nat) (l : list row) : Z :=
  foldr Z.add 0 (amount ∘ cell j <$> l).

(** The sum over all groups. *)
Definition groups_total (j : nat) (gs : grouping) : Z :=
  foldr Z.add 0 ((fun g : scalar * list row => sum_amounts j g.2) <$> gs).

(** The value [fillna(0)] leaves in a cell. *)
Definition fill0 (v : scalar) : scalar := if isna v then VInt 0 else v.

(** The rows a user row gives in the merged table: one for each row of
    the aggregate with its customer id, and one with 0 when there is
    none. *)
Definition merged_rows (i : nat) (agg : list row) (r : row) : list row :=
  match filter (has_key 0 (cell i r)) agg with
  | [] => [r ++ [VInt 0]]
  | ms => (fun t : row => r ++ [fill0 (cell 1 t)]) <$> ms
  end.

(** A function that leaves the tables of the database as they are,
    whether it returns or raises. *)
Definition keeps_tables {A} (m : Py A) : Prop :=
  forall st, tables (run m st).2 = tables st.

(** Three small files: products with a repeated row, transactions, and
    users listed out of order, one of them without an address. *)
Definition example_products : DataFrame :=
  mkDF ["Subscription ID"; "Plan"; "Product"]
       [[VInt 1; VStr "basic"; VStr "music"];
        [VInt 1; VStr "basic"; VStr "music"];
        [VInt 1; VStr "plus"; VStr "music"]].

Definition example_sales : DataFrame :=
  mkDF ["Transaction ID"; "Date (UTC)"; "Customer ID"; "Total"]
       [[VInt 10; VStr "01/01/24 07:00"; VInt 2; VInt 200];
        [VInt 11; VStr "02/01/24 07:00"; VInt 1; VInt 100];
        [VInt 12; VStr "02/01/24 08:00"; VInt 2; VInt 200]].

Definition example_customers : DataFrame :=
  mkDF user_columns
       [[VInt 2; VStr "Bob"; VStr "b@x"];
        [VInt 1; VStr "Alice"; VStr "a@x"];
        [VInt 3; VStr "Carol"; VNaN]].

(** A run in which everything is there: the three files, a date parser
    that returns what it is given, the configuration of the test, a
    server that accepts every connection. *)
Definition env_complete : Env :=
  mkEnv (fun path => true)
        (fun path _ =>
           if decide (path = "input/products.csv") then Ok example_products
           else if decide (path = "input/transactions.csv") then Ok example_sales
           else if decide (path = "input/users.csv") then Ok example_customers
           else Raise (FileNotFoundError path))
        (fun dates => Ok dates)
        (fun path => Ok path)
        (fun key => Ok (fun token => Ok test_config))
        (fun data => Ok data)
        (fun url => Ok tt)
        (fun url => Ok tt).

(** * Theorems *)

Lemma bind_Ok_inv {A B} (m : result A) (k : A -> result B) b :
  (m ≫= k) = Ok b -> exists a, m = Ok a /\ k a = Ok b.
Proof. destruct m as [a|e]; simpl; [eauto | discriminate]. Qed.

(** ** Deduplication *)

Section drop_seen_facts.
Implicit Types (seen l : list row) (r : row).

Lemma elem_of_drop_seen seen l r :
  r ∈ drop_seen seen l <-> r ∈ l /\ r ∉ seen.
Proof.
  revert seen; induction l as [|x l IH]; intros seen; simpl.
  - set_solver.
  - destruct (decide (x ∈ seen)) as [Hx|Hx].
    + rewrite IH. set_solver.
    + rewrite elem_of_cons, IH. destruct (decide (r = x)); set_solver.
Qed.

Lemma NoDup_drop_seen seen l : NoDup (drop_seen seen l).
Proof.
  revert seen; induction l as [|x l IH]; intros seen; simpl.
  - constructor.
  - destruct (decide (x ∈ seen)); [apply IH|].
    constructor; [|apply IH].
    rewrite elem_of_drop_seen. set_solver.
Qed.

Lemma length_drop_seen seen l : (length (drop_seen seen l) <= length l)%nat.
Proof.
  revert seen; induction l as [|x l IH]; intros seen; simpl; [lia|].
  destruct (decide (x ∈ seen)); simpl.
  - specialize (IH seen). lia.
  - specialize (IH (x :: seen)). lia.
Qed.

Lemma drop_seen_sublist seen l : drop_seen seen l `sublist_of` l.
Proof.
  revert seen; induction l as [|x l IH]; intros seen; simpl; [done|].
  destruct (decide (x ∈ seen)).
  - by apply sublist_cons.
  - by apply sublist_skip.
Qed.

(** A list without repetition that avoids [seen] is left as it is. *)
Lemma drop_seen_fixed seen l :
  NoDup l -> (forall r, r ∈ l -> r ∉ seen) -> drop_seen seen l = l.
Proof.
  revert seen; induction l as [|x l IH]; intros seen Hnd Hd; simpl; [done|].
  apply NoDup_cons in Hnd as [Hx Hnd].
  destruct (decide (x ∈ seen)) as [Hin|_].
  - exfalso. apply (Hd x); [left | done].
  - f_equal. apply IH; [done|].
    intros r Hr [->|Hs]%elem_of_cons; [done|].
    apply (Hd r); [by right | done].
Qed.

Lemma list_filter_iff_elem {A} (P1 P2 : A -> Prop)
    `{!forall x, Decision (P1 x), !forall x, Decision (P2 x)} (k : list A) :
  (forall x, x ∈ k -> (P1 x <-> P2 x)) -> filter P1 k = filter P2 k.
Proof.
  induction k as [|a k IH]; intros Hiff; [done|].
  rewrite !filter_cons.
  rewrite IH by (intros; apply Hiff; by right).
  apply decide_ext, Hiff. by left.
Qed.

(** The rows kept are those met neither in [seen] nor earlier in the
    list; [k] is the position of the head of [l] in the whole input. *)
Lemma drop_seen_positions seen l (k : nat) :
  drop_seen seen l =
  (filter (fun ir : nat * row =>
             (ir.2 ∉ seen) /\ (ir.2 ∉ take (ir.1 - k)%nat l))
          (zip (seq k (length l)) l)).*2.
Proof.
  revert seen k; induction l as [|x l IH]; intros seen k; [done|].
  cbn [drop_seen length seq zip zip_with].
  rewrite filter_cons; cbn [fst snd].
  replace (k - k)%nat with O by lia. cbn [take].
  assert (Hpos : forall ir : nat * row,
             ir ∈ zip (seq (S k) (length l)) l ->
             (S k <= ir.1)%nat).
  { intros [i y] Hi%elem_of_zip_l. apply elem_of_seq in Hi.
    simpl. lia. }
  destruct (decide (x ∈ seen)) as [Hx|Hx].
  - rewrite decide_False by tauto.
    rewrite (IH seen (S k)). f_equal.
    apply list_filter_iff_elem. intros [i y] Hi.
    apply Hpos in Hi; cbn [fst snd] in *.
    replace (i - k)%nat with (S (i - S k)) by lia. cbn [take].
    rewrite not_elem_of_cons. split; [|tauto].
    intros [Hy ?]; repeat split; try done. by intros ->.
  - rewrite decide_True by (split; [done | apply not_elem_of_nil]).
    cbn [fmap list_fmap snd]. f_equal.
    rewrite (IH (x :: seen) (S k)). f_equal.
    apply list_filter_iff_elem. intros [i y] Hi.
    apply Hpos in Hi; cbn [fst snd] in *.
    replace (i - k)%nat with (S (i - S k)) by lia. cbn [take].
    rewrite !not_elem_of_cons. tauto.
Qed.
End drop_seen_facts.

(** [C4] [remove_duplicates] always returns, having logged the number of
    rows removed and left the database alone; it is idempotent (applied
    to its own result it returns that result); it returns at most as
    many rows as it is given; every row it returns is a row of the input;
    no two rows it returns are equal; and the rows it returns are
    exactly the first occurrences of the input rows, in input order (so
    they form a subsequence of the input).  The column labels are
    unchanged. *)
Theorem remove_duplicates_spec (df : DataFrame) (name name' : string) (st : state) :
  exists out : DataFrame,
    run (remove_duplicates df name) st =
      (Ok out, mkState (log st ++ [LogRemoved (len df - len out) (len out) name])
                       (tables st))
    /\ (forall st', (run (remove_duplicates out name') st').1 = Ok out)
    /\ len out <= len df
    /\ (forall r, r ∈ rows out -> r ∈ rows df)
    /\ NoDup (rows out)
    /\ rows out = first_occurrences (rows df)
    /\ rows out `sublist_of` rows df
    /\ columns out = columns df.
Proof.
  exists (drop_duplicates df). split; [done|].
  unfold drop_duplicates, len; cbn [fst rows columns].
  repeat split.
  - intros st'. cbn. unfold drop_duplicates; cbn [rows columns]. do 2 f_equal.
    apply drop_seen_fixed; [apply NoDup_drop_seen|].
    intros r _. apply not_elem_of_nil.
  - pose proof (length_drop_seen [] (rows df)). lia.
  - intros r Hr. by apply elem_of_drop_seen in Hr as [? _].
  - apply NoDup_drop_seen.
  - unfold first_occurrences. rewrite (drop_seen_positions [] _ 0). f_equal.
    apply list_filter_iff. intros [i y]; cbn [fst snd].
    rewrite Nat.sub_0_r. split; [tauto|]. split; [apply not_elem_of_nil | done].
  - apply drop_seen_sublist.
Qed.

(** ** The order of the group keys *)

Lemma codes_inj s t : codes s = codes t -> s = t.
Proof.
  unfold codes. intros H.
  rewrite <- (string_of_list_ascii_of_string s), <- (string_of_list_ascii_of_string t).
  f_equal. revert H. generalize (list_ascii_of_string s) (list_ascii_of_string t).
  intros l1; induction l1 as [|a l1 IH]; intros [|b l2] H; simplify_eq/=; [done|].
  f_equal; [|by apply IH].
  rewrite <- (ascii_N_embedding a), <- (ascii_N_embedding b). by f_equal.
Qed.

Lemma scalar_lt_irrefl a : ~ scalar_lt a a.
Proof.
  destruct a as [x|s|]; simpl; [lia | | tauto].
  apply (irreflexivity lexico).
Qed.

Lemma scalar_lt_trans a b c : scalar_lt a b -> scalar_lt b c -> scalar_lt a c.
Proof.
  destruct a as [x|s|], b as [y|t|], c as [z|u|]; simpl; try tauto; try lia.
  apply (transitivity (R := lexico)).
Qed.

Lemma scalar_lt_total a b :
  a <> VNaN -> b <> VNaN -> a <> b -> ~ scalar_lt a b -> scalar_lt b a.
Proof.
  destruct a as [x|s|], b as [y|t|]; simpl; try tauto.
  - intros _ _ Hne Hlt. assert (x <> y) by congruence. lia.
  - intros _ _ Hne Hlt.
    destruct (trichotomy lexico (codes s) (codes t)) as [?|[Heq|?]]; try done.
    apply codes_inj in Heq. congruence.
Qed.

Lemma scalar_lt_notna a b : scalar_lt a b -> a <> VNaN /\ b <> VNaN.
Proof. destruct a, b; simpl; try tauto; split; discriminate. Qed.

(** ** Grouping *)

Section grouping_facts.
Implicit Types (gs : grouping) (k : scalar) (r : row) (l : list row).

(** Where [add_to_group] puts a row: into the group of its key when
    there is one, and else as a new group between the smaller and the
    larger keys. *)
Lemma add_to_group_split k r gs :
  k <> VNaN ->
  Forall (fun k' => k' <> VNaN) gs.*1 ->
  StronglySorted scalar_lt gs.*1 ->
  exists gs1 gs2,
    Forall (fun k' => scalar_lt k' k) gs1.*1 /\
    Forall (fun k' => scalar_lt k k') gs2.*1 /\
    ((exists rs, gs = gs1 ++ (k, rs) :: gs2 /\
                 add_to_group k r gs = gs1 ++ (k, r :: rs) :: gs2) \/
     (gs = gs1 ++ gs2 /\ add_to_group k r gs = gs1 ++ (k, [r]) :: gs2)).
Proof.
  intros Hk. induction gs as [|[k' rs'] gs IH]; intros Hna Hs.
  - exists [], []. repeat split; [constructor.. | by right].
  - cbn [fmap list_fmap fst] in Hna, Hs.
    apply Forall_cons in Hna as [Hk' Hna].
    apply StronglySorted_cons in Hs as [Hall Hs].
    cbn [add_to_group].
    destruct (decide (k = k')) as [<-|Hne].
    + exists [], gs. repeat split; [constructor | done |].
      left. by exists rs'.
    + destruct (decide (scalar_lt k k')) as [Hlt|Hnlt].
      * exists [], ((k', rs') :: gs). repeat split; [constructor | | by right].
        cbn [fmap list_fmap fst]. constructor; [done|].
        eapply Forall_impl; [exact Hall|]. intros; by eapply scalar_lt_trans.
      * destruct (IH Hna Hs) as (gs1 & gs2 & H1 & H2 & Hcase).
        exists ((k', rs') :: gs1), gs2. repeat split; [|done|].
        { cbn [fmap list_fmap fst]. constructor; [|done].
          by apply scalar_lt_total. }
        destruct Hcase as [(rs & -> & ->)|[-> ->]]; [left; by exists rs | by right].
Qed.

Lemma filter_none {A} (P : A -> Prop) `{!forall x, Decision (P x)} (l : list A) :
  (forall x, x ∈ l -> ~ P x) -> filter P l = [].
Proof.
  induction l as [|a l IH]; intros Hno; [done|].
  rewrite filter_cons_False by (apply Hno; by left).
  apply IH. intros x Hx. apply Hno. by right.
Qed.

Lemma scalar_lt_ne a b : scalar_lt a b -> a <> b.
Proof. intros Hlt ->. by apply scalar_lt_irrefl in Hlt. Qed.

(** What [group_rows] computes: ascending keys, one per key value met
    in the rows, each with the rows of that key in input order. *)
Lemma group_rows_inv i l :
  StronglySorted scalar_lt (group_rows i l).*1 /\
  (forall k, k ∈ (group_rows i l).*1 <->
             k <> VNaN /\ exists r, r ∈ l /\ cell i r = k) /\
  (forall g, g ∈ group_rows i l -> g.2 = filter (has_key i g.1) l).
Proof.
  induction l as [|r l (Hs & Hk & Hg)]; cbn [group_rows].
  - split; [apply SSorted_nil|]. split; [|by intros ? ?%elem_of_nil].
    intros k; split; [by intros ?%elem_of_nil|].
    intros (_ & r & ?%elem_of_nil & _); done.
  - assert (Hkeys : forall g, g ∈ group_rows i l -> g.1 ∈ (group_rows i l).*1).
    { intros g Hin. apply list_elem_of_fmap. eauto. }
    destruct (isna (cell i r)) eqn:Hna.
    { assert (cell i r = VNaN) as Hr by (by destruct (cell i r)).
      split; [done|]. split.
      - intros k. rewrite Hk. split.
        + intros (? & r' & ? & ?); split; [done|]. exists r'. split; [by right | done].
        + intros [Hne (r' & [->|Hin]%elem_of_cons & <-)]; [done|]. eauto.
      - intros g Hin. rewrite (Hg g Hin). rewrite filter_cons_False; [done|].
        unfold has_key. rewrite Hr. intros Heq.
        apply Hkeys, Hk in Hin as [Hne _]. congruence. }
    assert (cell i r <> VNaN) as Hr by (intros Heq; by rewrite Heq in Hna).
    set (k := cell i r) in *.
    destruct (add_to_group_split k r (group_rows i l) Hr)
      as (gs1 & gs2 & H1 & H2 & Hcase); [|done|].
    { apply Forall_forall. intros k' Hin%Hk. tauto. }
    rewrite Forall_forall in H1, H2.
    assert (Hg1 : forall g, g ∈ gs1 -> g.1 <> k).
    { intros g Hin. apply scalar_lt_ne, H1, list_elem_of_fmap. eauto. }
    assert (Hg2 : forall g, g ∈ gs2 -> g.1 <> k).
    { intros g Hin Heq. apply (scalar_lt_ne k g.1); [|done].
      apply H2, list_elem_of_fmap. eauto. }
    destruct Hcase as [(rs & Hold & ->)|[Hold ->]]; rewrite Hold in *.
    + rewrite !fmap_app in *; cbn [fmap list_fmap fst] in *.
      split; [done|]. split.
      * intros k'. rewrite Hk. split.
        -- intros (? & r' & ? & ?); split; [done|]. exists r'. split; [by right | done].
        -- intros [Hne (r' & [->|Hin]%elem_of_cons & <-)]; [|eauto].
           fold k. apply Hk. set_solver.
      * intros g [Hin|[->|Hin]%elem_of_cons]%elem_of_app; cbn [fst snd].
        -- rewrite filter_cons_False by (unfold has_key; intros ?; by apply (Hg1 g)).
           apply Hg. set_solver.
        -- rewrite filter_cons_True by done. f_equal.
           apply (Hg (k, rs)). set_solver.
        -- rewrite filter_cons_False by (unfold has_key; intros ?; by apply (Hg2 g)).
           apply Hg. set_solver.
    + assert (Hfresh : k ∉ (gs1 ++ gs2).*1).
      { rewrite fmap_app. intros [Hin|Hin]%elem_of_app.
        - by apply H1, scalar_lt_irrefl in Hin.
        - by apply H2, scalar_lt_irrefl in Hin. }
      rewrite !fmap_app in *; cbn [fmap list_fmap fst] in *.
      apply StronglySorted_app in Hs as (H12 & Hs1 & Hs2).
      split; [|split].
      * apply StronglySorted_app. split; [|split; [done|]].
        -- intros x1 x2 Hx1 [->|Hx2]%elem_of_cons; [by apply H1 | by apply H12].
        -- apply StronglySorted_cons. split; [by apply Forall_forall | done].
      * intros k'.
        assert (k' ∈ gs1.*1 ++ k :: gs2.*1 <->
                k' = k \/ k' ∈ gs1.*1 ++ gs2.*1) as -> by set_solver.
        rewrite Hk. split.
        -- intros [->|(? & r' & ? & ?)].
           ++ split; [done|]. exists r. split; [by left | done].
           ++ split; [done|]. exists r'. split; [by right | done].
        -- intros [Hne (r' & [->|Hin]%elem_of_cons & <-)]; [by left | right; eauto].
      * intros g [Hin|[->|Hin]%elem_of_cons]%elem_of_app; cbn [fst snd].
        -- rewrite filter_cons_False by (unfold has_key; intros ?; by apply (Hg1 g)).
           apply Hg. set_solver.
        -- rewrite filter_cons_True by done. f_equal.
           symmetry. apply filter_none. intros r' Hin Hkey.
           apply Hfresh, Hk. eauto.
        -- rewrite filter_cons_False by (unfold has_key; intros ?; by apply (Hg2 g)).
           apply Hg. set_solver.
Qed.
End grouping_facts.

(** ** Spending per user *)

Lemma mapM_Ok {A B} (f : A -> result B) (g : A -> B) (l : list A) :
  (forall x, x ∈ l -> f x = Ok (g x)) -> mapM f l = Ok (g <$> l).
Proof.
  induction l as [|a l IH]; intros Hf; [done|].
  cbn [mapM]. rewrite (Hf a) by (by left). cbn.
  rewrite IH by (intros; apply Hf; by right). done.
Qed.

Lemma StronglySorted_scalar_lt_NoDup (ks : list scalar) :
  StronglySorted scalar_lt ks -> NoDup ks.
Proof.
  induction 1 as [|k ks _ IH Hall]; constructor; [|done].
  intros Hin. rewrite Forall_forall in Hall.
  by apply Hall, scalar_lt_irrefl in Hin.
Qed.

Lemma sum_from_numbers (a : Z) (vs : list scalar) :
  Forall (fun v => number_or_na v /\ v <> VNaN) vs ->
  sum_from (VInt a) vs = Ok (VInt (a + foldr Z.add 0 (amount <$> vs))).
Proof.
  revert a; induction vs as [|v vs IH]; intros a Hall; cbn.
  - f_equal. f_equal. lia.
  - apply Forall_cons in Hall as [[Hv Hna] Hall].
    destruct v as [z| |]; [|done..]. cbn.
    rewrite IH by done. do 2 f_equal. lia.
Qed.

Lemma sum_cells_numbers (vs : list scalar) :
  Forall number_or_na vs ->
  sum_cells vs = Ok (VInt (foldr Z.add 0 (amount <$> vs))).
Proof.
  intros Hall. unfold sum_cells.
  assert (foldr Z.add 0 (amount <$> vs) =
          foldr Z.add 0 (amount <$> filter (fun v => v <> VNaN) vs)) as ->.
  { clear Hall. induction vs as [|v vs IH]; [done|].
    rewrite filter_cons. destruct (decide (v <> VNaN)) as [?|Hv]; cbn; [by rewrite IH|].
    destruct v; [by destruct Hv | by destruct Hv | done]. }
  assert (Forall (fun v => number_or_na v /\ v <> VNaN)
                 (filter (fun v => v <> VNaN) vs)) as Hf.
  { apply Forall_forall. intros v [? Hin]%list_elem_of_filter.
    rewrite Forall_forall in Hall. auto. }
  destruct (filter (fun v => v <> VNaN) vs) as [|v vs']; [done|].
  apply Forall_cons in Hf as [[Hv Hna] Hf].
  destruct v as [z| |]; [|done..].
  by rewrite sum_from_numbers.
Qed.



(** ** Merging the spending onto the users *)

Lemma col_index_Some name cols i :
  col_index name cols = Some i -> cols !! i = Some name.
Proof.
  revert i; induction cols as [|c cols IH]; intros i; cbn; [done|].
  destruct (decide (c = name)) as [->|_].
  - by intros [= <-].
  - destruct (col_index name cols) as [i'|]; [|done].
    intros [= <-]. by apply IH.
Qed.

Lemma col_index_fresh name cols :
  name ∉ cols -> col_index name (cols ++ [name]) = Some (length cols).
Proof.
  induction cols as [|c cols IH]; intros Hin; cbn.
  - by rewrite decide_True.
  - apply not_elem_of_cons in Hin as [Hne Hin].
    rewrite decide_False by done. by rewrite IH.
Qed.

(** With distinct keys at most one row has a given key. *)
Lemma filter_has_key_NoDup i k (l : list row) :
  NoDup (cell i <$> l) ->
  (filter (has_key i k) l = [] /\ k ∉ cell i <$> l) \/
  (exists r, filter (has_key i k) l = [r] /\ r ∈ l /\ cell i r = k).
Proof.
  induction l as [|r l IH]; intros Hnd; [left; split; [done | apply not_elem_of_nil]|].
  cbn [fmap list_fmap] in Hnd. apply NoDup_cons in Hnd as [Hr Hnd].
  rewrite filter_cons. destruct (decide (has_key i k r)) as [Hk|Hk].
  - right. exists r. split; [|split; [by left | done]].
    f_equal. apply filter_none. intros r' Hin Hk'. apply Hr.
    unfold has_key in *. rewrite Hk, <- Hk'. by apply list_elem_of_fmap_2.
  - destruct (IH Hnd) as [[-> Hno]|(r' & -> & Hin & Hk')].
    + left. split; [done|]. cbn. by apply not_elem_of_cons.
    + right. exists r'. split; [done|]. split; [by right | done].
Qed.

Lemma merged_label_id on suffix other (cols : list string) :
  (forall c, c ∈ cols -> c = on \/ c ∉ other) ->
  merged_label on suffix other <$> cols = cols.
Proof.
  intros Hc. induction cols as [|c cols IH]; [done|]. cbn. f_equal.
  - unfold merged_label. apply decide_False.
    intros [Hne Hin]. destruct (Hc c) as [?|?]; [by left | done..].
  - apply IH. intros; apply Hc; by right.
Qed.

Lemma fmap_flat_map_singleton {A B C} (g : A -> list B) (f : B -> C) (h : A -> C)
    (l : list A) :
  (forall x, x ∈ l -> f <$> g x = [h x]) -> f <$> flat_map g l = h <$> l.
Proof.
  induction l as [|a l IH]; intros Hg; [done|].
  cbn [flat_map]. rewrite fmap_app, (Hg a) by (by left).
  rewrite IH by (intros; apply Hg; by right). done.
Qed.

(** The table [add_total_spending_to_users] returns, row by row. *)
Lemma add_total_spending_to_users_rows (users agg : DataFrame) (i : nat) :
  wf_df users -> wf_df agg ->
  col_index "Customer ID" (columns users) = Some i ->
  columns agg = ["Customer ID"; "Total Spending"] ->
  "Total Spending" ∉ columns users ->
  NoDup (cell 0 <$> rows agg) ->
  add_total_spending_to_users users agg =
    Ok (mkDF (columns users ++ ["Total Spending"])
             ((fun r : row =>
                 r ++ [match filter (has_key 0 (cell i r)) (rows agg) with
                       | [] => VInt 0
                       | t :: _ => if isna (cell 1 t) then VInt 0 else cell 1 t
                       end]) <$> rows users)).
Proof.
  intros Hwu Hwa Hi Hcols Hfresh Hnd.
  assert (col_index "Customer ID" (columns agg) = Some O) as Hj
    by (by rewrite Hcols).
  unfold add_total_spending_to_users, merge_left. rewrite Hi, Hj, Hcols.
  rewrite merged_label_id; cycle 1.
  { intros c Hc. destruct (decide (c = "Customer ID")) as [|Hne]; [by left|right].
    intros [?|[->|[]%elem_of_nil]%elem_of_cons]%elem_of_cons; done. }
  change (delete O ["Customer ID"; "Total Spending"]) with ["Total Spending"].
  change (merged_label "Customer ID" "_y" (columns users) <$> ["Total Spending"])
    with [merged_label "Customer ID" "_y" (columns users) "Total Spending"].
  unfold merged_label. rewrite decide_False by tauto.
  change (Ok ?x ≫= ?f) with (f x).
  unfold fillna_column; cbn [columns rows]. rewrite col_index_fresh by done.
  f_equal. f_equal.
  unfold wf_df in Hwu, Hwa. rewrite Hcols in Hwa. rewrite Forall_forall in Hwu, Hwa.
  apply fmap_flat_map_singleton. intros r Hr.
  assert (length r = length (columns users)) as Hlen by (by apply Hwu).
  assert (forall v f, alter f (length (columns users)) (r ++ [v]) = r ++ [f v]) as Halter.
  { intros v f. rewrite <- Hlen.
    by rewrite <- (Nat.add_0_r (length r)), alter_app_r. }
  destruct (filter_has_key_NoDup 0 (cell i r) (rows agg) Hnd)
    as [[-> _]|(t & -> & Hin & _)]; cbn.
  - by rewrite Halter.
  - specialize (Hwa t Hin). destruct t as [|k [|v [|? ?]]]; try done.
    cbn. by rewrite Halter.
Qed.



(** ** The user collapse *)

Lemma last_valid_spec (j : nat) (g : list row) :
  last_present j g (last_valid (cell j <$> g)).
Proof.
  unfold last_valid.
  induction g as [|r g IH] using rev_ind.
  - right. split; [done | constructor].
  - rewrite fmap_app, filter_app. cbn [fmap list_fmap].
    rewrite filter_cons, filter_nil.
    destruct (decide (cell j r <> VNaN)) as [Hr|Hr].
    + rewrite last_snoc. left. exists g, r, []. repeat split; [done | constructor].
    + rewrite app_nil_r.
      assert (cell j r = VNaN) as Hna by (by destruct (cell j r); try done; destruct Hr).
      destruct IH as [(g1 & r' & g2 & -> & Hv & Hne & Hall)|[Hv Hall]].
      * left. exists g1, r', (g2 ++ [r]). rewrite <- app_assoc. repeat split; try done.
        apply Forall_app. split; [done | by constructor].
      * right. split; [done|]. apply Forall_app. split; [done | by constructor].
Qed.

(** The table [collapse_users] returns, in terms of the groups. *)
Lemma collapse_users_groups (df : DataFrame) (i jn je : nat) :
  col_index "Customer ID" (columns df) = Some i ->
  col_index "Customer Name" (columns df) = Some jn ->
  col_index "Customer Email" (columns df) = Some je ->
  collapse_users df =
    Ok (mkDF user_columns
             ((fun g : scalar * list row =>
                 [g.1; last_valid (cell jn <$> g.2); last_valid (cell je <$> g.2)])
              <$> group_rows i (rows df))).
Proof.
  intros Hi Hjn Hje. unfold collapse_users, groupby_agg_last.
  rewrite Hi. cbn [mapM]. rewrite Hjn, Hje. reflexivity.
Qed.

Lemma collapse_users_rows (df : DataFrame) (i jn je : nat) :
  col_index "Customer ID" (columns df) = Some i ->
  col_index "Customer Name" (columns df) = Some jn ->
  col_index "Customer Email" (columns df) = Some je ->
  collapse_users df =
    Ok (mkDF user_columns
             ((fun k : scalar =>
                 [k; last_valid (cell jn <$> filter (has_key i k) (rows df));
                     last_valid (cell je <$> filter (has_key i k) (rows df))])
              <$> (group_rows i (rows df)).*1)).
Proof.
  intros Hi Hjn Hje. rewrite (collapse_users_groups df i jn je) by done.
  do 2 f_equal. rewrite <- list_fmap_compose.
  destruct (group_rows_inv i (rows df)) as (_ & _ & Hg).
  apply Forall_fmap_ext_1, Forall_forall. intros g Hin. cbn.
  by rewrite (Hg g Hin).
Qed.

Lemma last_present_last (j : nat) (g : list row) (v : scalar) (r : row) :
  last_present j g v -> last g = Some r -> cell j r <> VNaN -> v = cell j r.
Proof.
  intros [(g1 & r' & g2 & -> & Hv & _ & Hall)|[_ Hall]] Hlast Hr.
  - destruct g2 as [|r2 g2 _] using rev_ind.
    + rewrite last_snoc in Hlast. by simplify_eq.
    + replace (g1 ++ r' :: g2 ++ [r2]) with ((g1 ++ r' :: g2) ++ [r2]) in Hlast
        by (by rewrite <- app_assoc).
      rewrite last_snoc in Hlast. simplify_eq.
      rewrite Forall_app, Forall_singleton in Hall. by destruct Hall.
  - destruct g as [|r2 g _] using rev_ind; [done|].
    rewrite last_snoc in Hlast. simplify_eq.
    rewrite Forall_app, Forall_singleton in Hall. by destruct Hall.
Qed.

(** [C3], the claim as it is written, fails: of two records of customer 1
    of which the later has no e-mail address, the collapse keeps the name
    of the later and the address of the earlier, a row that is not the
    last row of the customer. *)
Lemma collapse_users_not_last_row : ~ keeps_last_row users_missing_email.
Proof.
  intros (i & jn & je & out & Hi & Hjn & Hje & Hout & Hrows).
  vm_compute in Hi, Hjn, Hje, Hout. simplify_eq.
  destruct (Hrows [VInt 1; VStr "B"; VStr "a@x"]) as (r & Hr & Heq); [by left|].
  vm_compute in Hr. simplify_eq.
Qed.

(** [C3], amended.  On a users table with the columns [Customer ID],
    [Customer Name] and [Customer Email], the collapse returns exactly one
    row for every customer id met in the table (no id twice, no row for a
    missing id); the row holds the id, the last name that is not missing
    among the rows of that id in input order and, chosen independently,
    the last e-mail address that is not missing (a field is missing in
    the output only when it is missing in all rows of the id).  So when
    the last row of an id has a name, that name is kept, and the same for
    its address.  On the example of the specification the output is the
    single row (1, B, b\@x). *)
Theorem collapse_users_last_present :
  (forall (df : DataFrame) (i jn je : nat),
      col_index "Customer ID" (columns df) = Some i ->
      col_index "Customer Name" (columns df) = Some jn ->
      col_index "Customer Email" (columns df) = Some je ->
      exists (ids : list scalar) (name email : scalar -> scalar),
        collapse_users df =
          Ok (mkDF user_columns ((fun k => [k; name k; email k]) <$> ids))
        /\ NoDup ids
        /\ (forall k, k ∈ ids <->
                       k <> VNaN /\ exists r, r ∈ rows df /\ cell i r = k)
        /\ forall k, k ∈ ids ->
             let g := filter (has_key i k) (rows df) in
             last_present jn g (name k) /\ last_present je g (email k)
             /\ forall r, last g = Some r ->
                   (cell jn r <> VNaN -> name k = cell jn r) /\
                   (cell je r <> VNaN -> email k = cell je r))
  /\ collapse_users example_duplicate_users =
       Ok (mkDF user_columns [[VInt 1; VStr "B"; VStr "b@x"]]).
Proof.
  split; [|reflexivity].
  intros df i jn je Hi Hjn Hje.
  destruct (group_rows_inv i (rows df)) as (Hs & Hk & _).
  exists (group_rows i (rows df)).*1,
    (fun k => last_valid (cell jn <$> filter (has_key i k) (rows df))),
    (fun k => last_valid (cell je <$> filter (has_key i k) (rows df))).
  split; [by apply collapse_users_rows|].
  split; [by apply StronglySorted_scalar_lt_NoDup|].
  split; [done|].
  intros k _ g. subst g.
  split; [apply last_valid_spec|]. split; [apply last_valid_spec|].
  intros r Hr. split; intros Hne.
  - eapply last_present_last; [apply last_valid_spec | done..].
  - eapply last_present_last; [apply last_valid_spec | done..].
Qed.

(** The hypotheses of the amended [C3] hold of the two records with a
    missing address. *)
Lemma collapse_users_last_present_witness :
  exists (ids : list scalar) (name email : scalar -> scalar),
    collapse_users users_missing_email =
      Ok (mkDF user_columns ((fun k => [k; name k; email k]) <$> ids))
    /\ NoDup ids
    /\ (forall k, k ∈ ids <->
                   k <> VNaN /\
                   exists r, r ∈ rows users_missing_email /\ cell 0 r = k)
    /\ forall k, k ∈ ids ->
         let g := filter (has_key 0 k) (rows users_missing_email) in
         last_present 1 g (name k) /\ last_present 2 g (email k)
         /\ forall r, last g = Some r ->
               (cell 1 r <> VNaN -> name k = cell 1 r) /\
               (cell 2 r <> VNaN -> email k = cell 2 r).
Proof.
  apply (proj1 collapse_users_last_present users_missing_email 0%nat 1%nat 2%nat);
    reflexivity.
Defined.

Lemma group_rows_dropna (i : nat) (l : list row) :
  group_rows i (filter (fun r => cell i r <> VNaN) l) = group_rows i l.
Proof.
  induction l as [|r l IH]; [done|].
  rewrite filter_cons. cbn [group_rows].
  destruct (decide (cell i r <> VNaN)) as [Hr|Hr].
  - cbn [group_rows]. by rewrite IH.
  - rewrite IH. by destruct (cell i r); try done; destruct Hr.
Qed.

(** [C10] On a users table with the columns [Customer ID],
    [Customer Name] and [Customer Email], the collapse returns a table of
    exactly these three columns, whatever other columns the input has;
    the rows whose customer id is missing have no effect on the result
    (it is the result for the table without them, and no output row has
    a missing id); and the output rows are in ascending order of their
    customer id.  A table listed in descending order with a fourth
    column and a row without an id shows all three. *)
Theorem collapse_users_shape :
  (forall (df : DataFrame) (i jn je : nat),
      col_index "Customer ID" (columns df) = Some i ->
      col_index "Customer Name" (columns df) = Some jn ->
      col_index "Customer Email" (columns df) = Some je ->
      exists out : DataFrame,
        collapse_users df = Ok out
        /\ columns out = ["Customer ID"; "Customer Name"; "Customer Email"]
        /\ Forall (fun o : row => length o = 3%nat) (rows out)
        /\ collapse_users
             (mkDF (columns df) (filter (fun r => cell i r <> VNaN) (rows df)))
           = Ok out
        /\ Forall (fun o : row => cell 0 o <> VNaN) (rows out)
        /\ StronglySorted scalar_lt (cell 0 <$> rows out))
  /\ collapse_users users_descending =
       Ok (mkDF ["Customer ID"; "Customer Name"; "Customer Email"]
                [[VInt 1; VStr "Alice"; VStr "a@x"];
                 [VInt 2; VStr "Bob"; VStr "b@x"]]).
Proof.
  split; [|reflexivity].
  intros df i jn je Hi Hjn Hje.
  destruct (group_rows_inv i (rows df)) as (Hs & Hk & _).
  eexists. split; [by apply (collapse_users_groups df i jn je)|].
  cbn [columns rows]. split; [done|]. split.
  { apply Forall_fmap, Forall_forall. by intros. }
  split.
  { rewrite (collapse_users_groups _ i jn je) by done.
    cbn [rows]. by rewrite group_rows_dropna. }
  rewrite <- list_fmap_compose.
  change (cell 0 ∘ _) with (fst : scalar * list row -> scalar).
  split; [|done].
  apply Forall_fmap, Forall_forall. intros g Hg. cbn.
  assert (g.1 ∈ (group_rows i (rows df)).*1) as Hin by (by apply list_elem_of_fmap_2).
  by apply Hk in Hin as [? _].
Qed.

(** The hypotheses of [C10] hold of the table in descending order. *)
Lemma collapse_users_shape_witness :
  exists out : DataFrame,
    collapse_users users_descending = Ok out
    /\ columns out = ["Customer ID"; "Customer Name"; "Customer Email"]
    /\ Forall (fun o : row => length o = 3%nat) (rows out)
    /\ collapse_users
         (mkDF (columns users_descending)
               (filter (fun r => cell 1 r <> VNaN) (rows users_descending)))
       = Ok out
    /\ Forall (fun o : row => cell 0 o <> VNaN) (rows out)
    /\ StronglySorted scalar_lt (cell 0 <$> rows out).
Proof.
  apply (proj1 collapse_users_shape users_descending 1%nat 0%nat 3%nat);
    reflexivity.
Defined.

(** ** Column labels *)

Lemma lower_ascii_clean (b : ascii) :
  b <> " "%char -> ~ (b = "("%char \/ b = ")"%char) ->
  lower_ascii b <> " "%char /\ lower_ascii b <> "("%char /\
  lower_ascii b <> ")"%char /\ ~ is_upper (lower_ascii b).
Proof.
  destruct b as [[] [] [] [] [] [] [] []]; intros Hsp Hpar;
    (repeat split; [done | done | done | unfold is_upper; vm_compute; lia])
    || (exfalso; first [by apply Hsp | apply Hpar; by left | apply Hpar; by right]).
Qed.

Lemma standardize_label_cons (a : ascii) (c : string) :
  standardize_label (String a c) =
  if decide (a = " "%char) then String "_" (standardize_label c)
  else if decide (a = "("%char \/ a = ")"%char) then standardize_label c
  else String (lower_ascii a) (standardize_label c).
Proof.
  unfold standardize_label. cbn [str_replace].
  destruct (decide (a = " "%char)) as [->|Hsp]; [reflexivity|].
  cbn [str_replace].
  destruct (decide (a = "("%char)) as [->|Hl].
  { rewrite decide_True by (by left). reflexivity. }
  cbn [str_replace]. destruct (decide (a = ")"%char)) as [->|Hr].
  { rewrite decide_True by (by right). reflexivity. }
  rewrite decide_False by tauto. reflexivity.
Qed.

Lemma standardize_label_standardized (c : string) :
  standardize_label c = standardized c.
Proof.
  induction c as [|a c IH]; [done|].
  rewrite standardize_label_cons. cbn [standardized]. by rewrite IH.
Qed.

Lemma standardized_chars (s : string) (a : ascii) :
  a ∈ list_ascii_of_string (standardized s) ->
  a <> " "%char /\ a <> "("%char /\ a <> ")"%char /\ ~ is_upper a.
Proof.
  induction s as [|b s IH]; cbn [standardized].
  - by intros ?%elem_of_nil.
  - destruct (decide (b = " "%char)) as [->|Hsp].
    { cbn. intros [->|?]%elem_of_cons; [|by apply IH].
      repeat split; try done. unfold is_upper; vm_compute; lia. }
    destruct (decide (b = "("%char \/ b = ")"%char)) as [|Hpar]; [done|].
    cbn. intros [->|?]%elem_of_cons; [|by apply IH].
    by apply lower_ascii_clean.
Qed.


(** ** The configuration *)

Lemma interpolate_loop_plain nested d o sect (v : string) :
  configparser.contains "%"%char v = false ->
  configparser.interpolate_loop nested d o sect v None = Ok v.
Proof.
  induction v as [|a v IH]; [done|].
  cbn [configparser.contains]. intros [Ha Hv]%orb_false_iff.
  apply bool_decide_eq_false in Ha. specialize (IH Hv).
  destruct a as [[] [] [] [] [] [] [] []]; try (by destruct Ha);
    cbn [configparser.interpolate_loop]; by rewrite IH.
Qed.

(** A value without a percent sign is returned as it is written. *)
Lemma interpolate_some_plain n d o sect (v : string) :
  configparser.contains "%"%char v = false ->
  configparser.interpolate_some (S n) d o sect v = Ok v.
Proof. apply interpolate_loop_plain. Qed.

(** When a lookup in the section [postgresql] returns. *)
Lemma getitem_postgresql (cp : configparser.ConfigParser) (key v : string) :
  configparser.getitem cp "postgresql" key = Ok v <->
  exists (opts : gmap string string) (raw : string),
    configparser.cp_sections cp !! "postgresql" = Some opts /\
    (opts ∪ configparser.cp_defaults cp) !! str_lower key = Some raw /\
    configparser.interpolate_some configparser.MAX_INTERPOLATION_DEPTH
      (opts ∪ configparser.cp_defaults cp) (str_lower key) "postgresql" raw = Ok v.
Proof.
  unfold configparser.getitem, configparser.unify_values.
  destruct (configparser.cp_sections cp !! "postgresql") as [opts|] eqn:Hs.
  - rewrite decide_False by (intros [_ ?]; done).
    change (default ∅ (Some opts)) with opts.
    destruct ((opts ∪ configparser.cp_defaults cp) !! str_lower key) as [raw|] eqn:Hraw.
    + split; [intros ?; exists opts, raw; by repeat split|].
      intros (opts' & raw' & ? & ? & ?). by simplify_eq.
    + split; [done|]. intros (opts' & raw' & ? & ? & ?). by simplify_eq.
  - rewrite decide_True by (split; done).
    split; [done|]. intros (opts' & raw' & ? & ? & ?). by simplify_eq.
Qed.

Lemma returns_not_raises {A} (m : result A) : returns m -> raises m -> False.
Proof. by destruct m. Qed.


(** A second way in which it fails: the user is absent from the section
    of [config_with_default], and [read_db_config] returns the user of
    the default section. *)
Lemma read_db_config_default_succeeds :
  read_db_config config_with_default =
    Ok (mk_db_config "postgres" "secret" "localhost" "5432" "test_db")
  /\ has_connection_settings config_with_default = false.
Proof. split; by vm_compute. Qed.

(** The five lookups of [read_db_config], on a parser that has the
    section. *)
Lemma read_db_config_Ok (doc : string) (cfg : db_config) :
  read_db_config doc = Ok cfg <->
  exists (cp : configparser.ConfigParser) (opts : gmap string string),
    configparser.read_string doc = Ok cp /\
    configparser.cp_sections cp !! "postgresql" = Some opts /\
    Forall (fun kv : string * string =>
              exists raw : string,
                (opts ∪ configparser.cp_defaults cp) !! kv.1 = Some raw /\
                configparser.interpolate_some configparser.MAX_INTERPOLATION_DEPTH
                  (opts ∪ configparser.cp_defaults cp) kv.1 "postgresql" raw
                = Ok kv.2)
           [("user", user cfg); ("password", password cfg); ("host", host cfg);
            ("port", port cfg); ("database", database cfg)].
Proof.
  unfold read_db_config. split.
  - intros H.
    apply bind_Ok_inv in H as (cp & Hcp & H).
    apply bind_Ok_inv in H as (u & Hu & H).
    apply bind_Ok_inv in H as (pw & Hpw & H).
    apply bind_Ok_inv in H as (h & Hh & H).
    apply bind_Ok_inv in H as (po & Hpo & H).
    apply bind_Ok_inv in H as (db & Hdb & H).
    injection H as <-. cbn [user password host port database].
    apply getitem_postgresql in Hu as (opts & rawu & Hs & Hu & Hiu).
    apply getitem_postgresql in Hpw as (? & rawpw & ? & Hpw & Hipw).
    apply getitem_postgresql in Hh as (? & rawh & ? & Hh & Hih).
    apply getitem_postgresql in Hpo as (? & rawpo & ? & Hpo & Hipo).
    apply getitem_postgresql in Hdb as (? & rawdb & ? & Hdb & Hidb).
    simplify_eq.
    exists cp, opts. split; [done|]. split; [done|].
    repeat constructor; cbn [fst snd]; eauto.
  - intros (cp & opts & Hcp & Hs & Hall).
    repeat (apply Forall_cons in Hall as [(? & ? & ?) Hall]).
    cbn [fst snd] in *.
    rewrite Hcp. change (Ok cp ≫= ?f) with (f cp). cbv beta.
    rewrite (proj2 (getitem_postgresql cp "user" (user cfg))) by eauto.
    change (Ok ?x ≫= ?f) with (f x); cbv beta.
    rewrite (proj2 (getitem_postgresql cp "password" (password cfg))) by eauto.
    change (Ok ?x ≫= ?f) with (f x); cbv beta.
    rewrite (proj2 (getitem_postgresql cp "host" (host cfg))) by eauto.
    change (Ok ?x ≫= ?f) with (f x); cbv beta.
    rewrite (proj2 (getitem_postgresql cp "port" (port cfg))) by eauto.
    change (Ok ?x ≫= ?f) with (f x); cbv beta.
    rewrite (proj2 (getitem_postgresql cp "database" (database cfg))) by eauto.
    change (Ok ?x ≫= ?f) with (f x); cbv beta.
    by destruct cfg.
Qed.



(** ** Loading *)

Lemma run_bind {A B} (m : Py A) (k : A -> Py B) (st : state) :
  run (m ≫= k) st =
  match run m st with
  | (Ok a, st') => run (k a) st'
  | (Raise e, st') => (Raise e, st')
  end.
Proof. reflexivity. Qed.

(** The three ways through [load_tsv_file]. *)
Lemma load_tsv_file_run (w : Env) (file_path delimiter : string) (st : state) :
  run (load_tsv_file w file_path delimiter) st =
  if os_path_exists w file_path then
    match pd_read_csv w file_path delimiter with
    | Ok df =>
        (Ok (Some df),
         mkState (log st ++ [LogLoaded (len df) file_path]) (tables st))
    | Raise e =>
        (Ok None, mkState (log st ++ [LogLoadError file_path e]) (tables st))
    end
  else (Ok None, mkState (log st ++ [LogFileMissing file_path]) (tables st)).
Proof.
  unfold load_tsv_file.
  destruct (os_path_exists w file_path); cbn [negb]; [|done].
  unfold try_except, run at 1. rewrite run_bind. cbn [lift run].
  by destruct (pd_read_csv w file_path delimiter).
Qed.

(** [C6] [load_tsv_file] never raises.  It returns after logging one
    record and without touching the database: the absent result, with an
    error record, when the path does not exist and when reading the file
    raises; and, when the file is read, the very table the reader
    produced (its column labels and its rows in their order), with the
    number of its rows in the record. *)
Theorem load_tsv_file_spec (w : Env) (file_path delimiter : string) (st : state) :
  exists (v : option DataFrame) (r : log_record),
    run (load_tsv_file w file_path delimiter) st =
      (Ok v, mkState (log st ++ [r]) (tables st))
    /\ (os_path_exists w file_path = false ->
        v = None /\ r = LogFileMissing file_path)
    /\ (forall e, os_path_exists w file_path = true ->
                  pd_read_csv w file_path delimiter = Raise e ->
                  v = None /\ r = LogLoadError file_path e)
    /\ (forall df, os_path_exists w file_path = true ->
                   pd_read_csv w file_path delimiter = Ok df ->
                   v = Some df /\ r = LogLoaded (len df) file_path)
    /\ (v = None -> level_of r = ERROR).
Proof.
  rewrite load_tsv_file_run.
  destruct (os_path_exists w file_path) eqn:Hex.
  - destruct (pd_read_csv w file_path delimiter) as [df|e] eqn:Hread.
    + exists (Some df), (LogLoaded (len df) file_path).
      split; [done|]. repeat split; try done.
      all: intros; by simplify_eq.
    + exists None, (LogLoadError file_path e).
      split; [done|]. repeat split; try done.
      all: intros; by simplify_eq.
  - exists None, (LogFileMissing file_path).
    split; [done|]. repeat split; done.
Qed.

(** ** The run of the pipeline *)

Lemma load_tsv_file_absent (w : Env) (file_path : string) (st st' : state)
    (v : option DataFrame) :
  absent w file_path ->
  run (load_tsv_file w file_path tab) st = (Ok v, st') -> v = None.
Proof.
  rewrite load_tsv_file_run. intros [Hex|[e He]].
  - rewrite Hex. by intros [= <- _].
  - rewrite He. destruct (os_path_exists w file_path); by intros [= <- _].
Qed.

(** A table that was not loaded is still absent after [ingest_data]. *)
Lemma ingest_data_absent (w : Env) (pf tf uf : string) (st st' : state)
    (p t u : option DataFrame) :
  run (ingest_data w pf tf uf) st = (Ok (p, t, u), st') ->
  (absent w pf -> p = None) /\ (absent w tf -> t = None) /\
  (absent w uf -> u = None).
Proof.
  unfold ingest_data. intros H.
  rewrite run_bind in H.
  destruct (run (load_tsv_file w pf tab) st) as [[vp|?] st1] eqn:Hp; [|done].
  rewrite run_bind in H.
  destruct (run (load_tsv_file w tf tab) st1) as [[vt|?] st2] eqn:Ht; [|done].
  rewrite run_bind in H.
  destruct (run (load_tsv_file w uf tab) st2) as [[vu|?] st3] eqn:Hu; [|done].
  assert (absent w pf -> vp = None) as Hvp by (intros; by eapply load_tsv_file_absent).
  assert (absent w tf -> vt = None) as Hvt by (intros; by eapply load_tsv_file_absent).
  assert (absent w uf -> vu = None) as Hvu by (intros; by eapply load_tsv_file_absent).
  clear Hp Ht Hu.
  rewrite run_bind in H.
  destruct (run (match vt with Some df => _ | None => _ end) st3)
    as [[vt'|?] st4] eqn:Ht'; [|done].
  assert (vt = None -> vt' = None) as Hvt'.
  { intros ->. cbn in Ht'. by simplify_eq. }
  rewrite run_bind in H.
  destruct (run (match vp with Some df => _ | None => _ end) st4)
    as [[vp'|?] st5] eqn:Hp'; [|done].
  assert (vp = None -> vp' = None) as Hvp'.
  { intros ->. cbn in Hp'. by simplify_eq. }
  rewrite run_bind in H.
  destruct (run (match vt' with Some df => _ | None => _ end) st5)
    as [[vt''|?] st6] eqn:Ht''; [|done].
  assert (vt' = None -> vt'' = None) as Hvt''.
  { intros ->. cbn in Ht''. by simplify_eq. }
  rewrite run_bind in H.
  destruct (run (match vu with Some df => _ | None => _ end) st6)
    as [[vu'|?] st7] eqn:Hu'; [|done].
  assert (vu = None -> vu' = None) as Hvu'.
  { intros ->. cbn in Hu'. by simplify_eq. }
  cbn in H. simplify_eq. repeat split; auto.
Qed.

(** [C5] fails on the code: when one of the three loads returns the
    absent result, the run ends with an exception.  Without the
    transactions file (the two other files being read) the exception is
    the [AttributeError] of [None.groupby], and no table is written. *)
Theorem main_crashes_without_a_source :
  (forall (w : Env) (st : state),
      absent w "input/products.csv" \/ absent w "input/transactions.csv" \/
      absent w "input/users.csv" ->
      crashes (main w) st)
  /\ (run (main env_without_transactions) initial_state).1 =
       Raise (AttributeError "groupby")
  /\ tables (run (main env_without_transactions) initial_state).2 = ∅.
Proof.
  split; [|split; by vm_compute].
  intros w st Habs. unfold crashes, main. cbv zeta.
  rewrite run_bind.
  destruct (run (ingest_data w _ _ _) st) as [[[[p t] u]|?] st1] eqn:Hing; [|done].
  apply ingest_data_absent in Hing as (Hp & Ht & Hu).
  rewrite run_bind.
  destruct t as [dt|]; [|done].
  destruct u as [du|]; cycle 1.
  { cbn. by destruct (calculate_total_spending_per_user dt). }
  destruct p as [dp|]; [destruct Habs as [?|[?|?]]; naive_solver|].
  cbn [lift run getattr]. change (Ok dt ≫= ?f) with (f dt); cbv beta.
  destruct (calculate_total_spending_per_user dt) as [sp|?]; [|done].
  rewrite run_bind. cbn [lift run].
  destruct (add_total_spending_to_users du sp) as [up|?]; [|done].
  rewrite run_bind. cbn [log_example_rows logging run].
  rewrite run_bind.
  destruct (run (get_postgres_engine w) _) as [[engine|?] st2]; [|done].
  rewrite run_bind. done.
Qed.


(** The transactions file is absent in [env_without_transactions], and
    the run crashes. *)
Lemma main_crashes_without_a_source_witness :
  crashes (main env_without_transactions) initial_state.
Proof.
  apply (proj1 main_crashes_without_a_source).
  right; left. left. reflexivity.
Defined.

(** * Further properties *)

(** ** Column labels, again *)

Lemma lower_ascii_fixed (a : ascii) : ~ is_upper a -> lower_ascii a = a.
Proof.
  unfold is_upper, lower_ascii. intros Hup.
  destruct (_ && _)%nat eqn:Hb; [|done].
  apply andb_true_iff in Hb as [H1%Nat.leb_le H2%Nat.leb_le]. lia.
Qed.

Lemma standardized_fixed (s : string) :
  (forall a, a ∈ list_ascii_of_string s ->
             a <> " "%char /\ a <> "("%char /\ a <> ")"%char /\ ~ is_upper a) ->
  standardized s = s.
Proof.
  induction s as [|a s IH]; intros Hclean; [done|].
  destruct (Hclean a) as (Hsp & Hl & Hr & Hup); [by left|].
  cbn [standardized]. rewrite decide_False by done.
  rewrite decide_False by tauto.
  rewrite lower_ascii_fixed by done. f_equal.
  apply IH. intros b Hb. apply Hclean. by right.
Qed.


(** ** Spending per user, again *)

Lemma sum_amounts_app j (l1 l2 : list row) :
  sum_amounts j (l1 ++ l2) = sum_amounts j l1 + sum_amounts j l2.
Proof.
  unfold sum_amounts. induction l1 as [|r l1 IH]; cbn; [done|].
  rewrite IH. lia.
Qed.

Lemma groups_total_add_to_group j k r (gs : grouping) :
  groups_total j (add_to_group k r gs) = amount (cell j r) + groups_total j gs.
Proof.
  induction gs as [|[k' rs] gs IH]; cbn [add_to_group].
  - unfold groups_total, sum_amounts; cbn. lia.
  - destruct (decide (k = k')) as [_|_].
    + unfold groups_total, sum_amounts; cbn. lia.
    + destruct (decide (scalar_lt k k')) as [_|_].
      * unfold groups_total, sum_amounts; cbn. lia.
      * unfold groups_total in *; cbn [fmap list_fmap foldr snd] in *.
        rewrite IH. lia.
Qed.

Lemma groups_total_group_rows i j (l : list row) :
  groups_total j (group_rows i l) =
  sum_amounts j (filter (fun r => cell i r <> VNaN) l).
Proof.
  induction l as [|r l IH]; [done|].
  cbn [group_rows]. rewrite filter_cons.
  destruct (decide (cell i r <> VNaN)) as [Hr|Hr].
  - assert (isna (cell i r) = false) as -> by (by destruct (cell i r)).
    rewrite groups_total_add_to_group, IH. unfold sum_amounts; cbn. done.
  - assert (isna (cell i r) = true) as ->; [|done].
    destruct (cell i r); try done; by destruct Hr.
Qed.

(** The table [calculate_total_spending_per_user] returns, in terms of
    the groups. *)
Lemma calculate_total_spending_per_user_groups (df : DataFrame) (i j : nat) :
  col_index "Customer ID" (columns df) = Some i ->
  col_index "Total" (columns df) = Some j ->
  Forall (fun r => number_or_na (cell j r)) (rows df) ->
  calculate_total_spending_per_user df =
    Ok (mkDF ["Customer ID"; "Total Spending"]
             ((fun g : scalar * list row => [g.1; VInt (sum_amounts j g.2)])
              <$> group_rows i (rows df))).
Proof.
  intros Hi Hj Hnum.
  destruct (group_rows_inv i (rows df)) as (_ & _ & Hg).
  unfold calculate_total_spending_per_user, groupby_sum. rewrite Hi, Hj.
  rewrite (mapM_Ok _ (fun g => [g.1; VInt (sum_amounts j g.2)])); [done|].
  intros g Hin. rewrite sum_cells_numbers.
  - cbn. unfold sum_amounts. by rewrite list_fmap_compose.
  - rewrite (Hg g Hin). apply Forall_fmap, Forall_forall.
    intros r [_ Hr]%list_elem_of_filter. rewrite Forall_forall in Hnum. by apply Hnum.
Qed.


(** ** Merging, again *)

Lemma fmap_flat_map {A B C} (g : A -> list B) (f : B -> C) (l : list A) :
  f <$> flat_map g l = flat_map (fun x => f <$> g x) l.
Proof.
  induction l as [|a l IH]; [done|].
  cbn [flat_map]. by rewrite fmap_app, IH.
Qed.

(** The table [add_total_spending_to_users] returns for any aggregate of
    the two columns. *)
Lemma add_total_spending_to_users_flat (users agg : DataFrame) (i : nat) :
  wf_df users -> wf_df agg ->
  col_index "Customer ID" (columns users) = Some i ->
  columns agg = ["Customer ID"; "Total Spending"] ->
  "Total Spending" ∉ columns users ->
  add_total_spending_to_users users agg =
    Ok (mkDF (columns users ++ ["Total Spending"])
             (flat_map (merged_rows i (rows agg)) (rows users))).
Proof.
  intros Hwu Hwa Hi Hcols Hfresh.
  assert (col_index "Customer ID" (columns agg) = Some O) as Hj
    by (by rewrite Hcols).
  unfold add_total_spending_to_users, merge_left. rewrite Hi, Hj, Hcols.
  rewrite merged_label_id; cycle 1.
  { intros c Hc. destruct (decide (c = "Customer ID")) as [|Hne]; [by left|right].
    intros [?|[->|[]%elem_of_nil]%elem_of_cons]%elem_of_cons; done. }
  change (delete O ["Customer ID"; "Total Spending"]) with ["Total Spending"].
  change (merged_label "Customer ID" "_y" (columns users) <$> ["Total Spending"])
    with [merged_label "Customer ID" "_y" (columns users) "Total Spending"].
  unfold merged_label. rewrite decide_False by tauto.
  change (Ok ?x ≫= ?f) with (f x).
  unfold fillna_column; cbn [columns rows]. rewrite col_index_fresh by done.
  f_equal. f_equal. rewrite fmap_flat_map.
  unfold wf_df in Hwu, Hwa. rewrite Hcols in Hwa. rewrite Forall_forall in Hwu, Hwa.
  induction (rows users) as [|r l IH]; [done|].
  cbn [flat_map]. rewrite IH by (intros; apply Hwu; by right). f_equal.
  assert (length r = length (columns users)) as Hlen by (apply Hwu; by left).
  assert (forall v f, alter f (length (columns users)) (r ++ [v]) = r ++ [f v]) as Halter.
  { intros v f. rewrite <- Hlen.
    by rewrite <- (Nat.add_0_r (length r)), alter_app_r. }
  unfold merged_rows.
  assert (Forall (fun t : row => length t = 2%nat)
                 (filter (has_key 0 (cell i r)) (rows agg))) as Hms.
  { apply Forall_forall. intros t [_ Ht]%list_elem_of_filter. by apply Hwa. }
  destruct (filter (has_key 0 (cell i r)) (rows agg)) as [|t ms].
  - cbn. by rewrite Halter.
  - rewrite <- list_fmap_compose.
    apply Forall_fmap_ext_1. eapply Forall_impl; [exact Hms|].
    intros t' Ht'. destruct t' as [|k [|v [|? ?]]]; try done.
    cbn. by rewrite Halter.
Qed.


Lemma col_index_None name cols : name ∉ cols -> col_index name cols = None.
Proof.
  induction cols as [|c cols IH]; intros Hin; cbn; [done|].
  apply not_elem_of_cons in Hin as [Hne Hin].
  rewrite decide_False by done. by rewrite IH.
Qed.

Lemma col_index_app_l name cols cols' i :
  col_index name cols = Some i -> col_index name (cols ++ cols') = Some i.
Proof.
  revert i; induction cols as [|c cols IH]; intros i; cbn; [done|].
  destruct (decide (c = name)); [done|].
  destruct (col_index name cols) as [i'|]; [|done].
  intros [= <-]. by rewrite (IH i').
Qed.


(** ** The primary key of the users table *)

Lemma NoDup_fmap_singleton (ks : list scalar) :
  NoDup ks -> NoDup ((fun k => [k]) <$> ks).
Proof. apply NoDup_fmap_2. by intros ?? [=]. Qed.

(** The collapse, the aggregation and the merge compose, and their result
    satisfies the key of [dim_user]. *)
Lemma users_pipeline_primary_key (users transactions : DataFrame)
    (i jn je it jt : nat) :
  col_index "Customer ID" (columns users) = Some i ->
  col_index "Customer Name" (columns users) = Some jn ->
  col_index "Customer Email" (columns users) = Some je ->
  col_index "Customer ID" (columns transactions) = Some it ->
  col_index "Total" (columns transactions) = Some jt ->
  Forall (fun r => number_or_na (cell jt r)) (rows transactions) ->
  exists users_df spending_per_user_df updated_users_df : DataFrame,
    collapse_users users = Ok users_df
    /\ calculate_total_spending_per_user transactions = Ok spending_per_user_df
    /\ add_total_spending_to_users users_df spending_per_user_df
       = Ok updated_users_df
    /\ length (rows updated_users_df) = length (rows users_df)
    /\ check_primary_key "dim_user" ["customer_id"]
         (standardize_column_names updated_users_df) = Ok tt.
Proof.
  intros Hi Hjn Hje Hit Hjt Hnum.
  destruct (group_rows_inv i (rows users)) as (Hsu & Hku & _).
  destruct (group_rows_inv it (rows transactions)) as (Hst & _ & _).
  eexists _, _, _.
  split; [by apply (collapse_users_groups users i jn je)|].
  split; [by apply (calculate_total_spending_per_user_groups transactions it jt)|].
  rewrite (add_total_spending_to_users_rows _ _ 0); cycle 1.
  - apply Forall_fmap, Forall_forall. by intros.
  - apply Forall_fmap, Forall_forall. by intros.
  - done.
  - done.
  - cbn [columns]. unfold user_columns. compute_done.
  - cbn [rows]. rewrite <- list_fmap_compose.
    change (cell 0 ∘ _) with (fst : scalar * list row -> scalar).
    by apply StronglySorted_scalar_lt_NoDup.
  - split; [done|]. cbn [rows columns]. split; [by rewrite length_fmap|].
    unfold check_primary_key, standardize_column_names. cbn [columns rows].
    change (mapM _ ["customer_id"]) with (Some [O]).
    cbn [fmap list_fmap]. rewrite <- !list_fmap_compose.
    set (keys := _ <$> group_rows i (rows users)).
    assert (keys = (fun k => [k]) <$> (group_rows i (rows users)).*1) as ->.
    { subst keys. rewrite <- list_fmap_compose.
      apply Forall_fmap_ext_1, Forall_forall. by intros. }
    rewrite decide_True; [done|]. split.
    + apply Forall_fmap, Forall_forall. intros k Hk. cbn.
      apply Hku in Hk as [Hk _]. intros Heq%list_elem_of_singleton. by subst.
    + by apply NoDup_fmap_singleton, StronglySorted_scalar_lt_NoDup.
Qed.


(** ** What a run writes *)

Lemma keeps_tables_ret {A} (a : A) : keeps_tables (mret a).
Proof. by intros st. Qed.

Lemma keeps_tables_lift {A} (m : result A) : keeps_tables (lift m).
Proof. by intros st. Qed.

Lemma keeps_tables_logging (r : log_record) : keeps_tables (logging r).
Proof. by intros st. Qed.

Lemma keeps_tables_bind {A B} (m : Py A) (k : A -> Py B) :
  keeps_tables m -> (forall a, keeps_tables (k a)) -> keeps_tables (m ≫= k).
Proof.
  intros Hm Hk st. rewrite run_bind. specialize (Hm st).
  destruct (run m st) as [[a|e] st1]; cbn [snd] in *; [|done].
  by rewrite Hk.
Qed.

Lemma keeps_tables_fmap {A B} (f : A -> B) (m : Py A) :
  keeps_tables m -> keeps_tables (f <$> m).
Proof.
  intros Hm st. specialize (Hm st). unfold fmap, Py_fmap. cbn [run].
  by destruct (run m st) as [[a|e] st1].
Qed.

Lemma keeps_tables_try_except {A} (body : Py A) (handler : exn -> Py A) :
  keeps_tables body -> (forall e, keeps_tables (handler e)) ->
  keeps_tables (try_except body handler).
Proof.
  intros Hb Hh st. specialize (Hb st). unfold try_except. cbn [run].
  destruct (run body st) as [[a|e] st1]; cbn [snd] in *; [done|].
  by rewrite Hh.
Qed.

Lemma keeps_tables_load_tsv_file w file_path delimiter :
  keeps_tables (load_tsv_file w file_path delimiter).
Proof.
  intros st. rewrite load_tsv_file_run.
  destruct (os_path_exists w file_path); [|done].
  by destruct (pd_read_csv w file_path delimiter).
Qed.

Lemma keeps_tables_remove_duplicates df name :
  keeps_tables (remove_duplicates df name).
Proof. by intros st. Qed.

Lemma keeps_tables_convert_date_format w df :
  keeps_tables (convert_date_format w df).
Proof.
  unfold convert_date_format.
  destruct (col_index "Date (UTC)" (columns df)).
  - apply keeps_tables_bind; [apply keeps_tables_lift|]. intros dates.
    apply keeps_tables_bind; [apply keeps_tables_logging|]. intros _.
    apply keeps_tables_ret.
  - apply keeps_tables_bind; [apply keeps_tables_logging|]. intros _.
    apply keeps_tables_ret.
Qed.

Lemma keeps_tables_ingest_data w pf tf uf :
  keeps_tables (ingest_data w pf tf uf).
Proof.
  unfold ingest_data.
  repeat (apply keeps_tables_bind; [apply keeps_tables_load_tsv_file|]; intros ?).
  apply keeps_tables_bind.
  { destruct a0; [apply keeps_tables_fmap, keeps_tables_convert_date_format
                 | apply keeps_tables_ret]. }
  intros ?. apply keeps_tables_bind.
  { destruct a; [apply keeps_tables_fmap, keeps_tables_remove_duplicates
                | apply keeps_tables_ret]. }
  intros ?. apply keeps_tables_bind.
  { destruct a2; [apply keeps_tables_fmap, keeps_tables_remove_duplicates
                 | apply keeps_tables_ret]. }
  intros ?. apply keeps_tables_bind; [|intros; apply keeps_tables_ret].
  destruct a1; [|apply keeps_tables_ret].
  apply keeps_tables_bind; [apply keeps_tables_remove_duplicates|].
  intros ?. apply keeps_tables_fmap, keeps_tables_lift.
Qed.

Lemma keeps_tables_get_postgres_engine w : keeps_tables (get_postgres_engine w).
Proof.
  unfold get_postgres_engine.
  apply keeps_tables_bind; [apply keeps_tables_lift|]. intros cfg.
  apply keeps_tables_bind; [apply keeps_tables_lift|]. intros _.
  apply keeps_tables_bind; [apply keeps_tables_logging|]. intros _.
  apply keeps_tables_ret.
Qed.

(** [X6] A run in which one of the three sources is absent writes
    nothing: whatever the database held before the run, it holds after
    it. *)
Theorem main_writes_nothing_without_a_source (w : Env) (st : state) :
  absent w "input/products.csv" \/ absent w "input/transactions.csv" \/
  absent w "input/users.csv" ->
  tables (run (main w) st).2 = tables st.
Proof.
  intros Habs. unfold main. cbv zeta.
  rewrite run_bind.
  pose proof (keeps_tables_ingest_data w "input/products.csv"
                "input/transactions.csv" "input/users.csv" st) as Hst1.
  destruct (run (ingest_data w _ _ _) st) as [[[[p t] u]|?] st1] eqn:Hing;
    cbn [snd] in Hst1; [|done].
  apply ingest_data_absent in Hing as (Hp & Ht & Hu).
  rewrite run_bind.
  destruct t as [dt|]; [|done].
  destruct u as [du|]; cycle 1.
  { cbn. by destruct (calculate_total_spending_per_user dt). }
  destruct p as [dp|]; [destruct Habs as [?|[?|?]]; naive_solver|].
  cbn [lift run getattr]. change (Ok dt ≫= ?f) with (f dt); cbv beta.
  destruct (calculate_total_spending_per_user dt) as [sp|?]; [|done].
  rewrite run_bind. cbn [lift run].
  destruct (add_total_spending_to_users du sp) as [up|?]; [|done].
  rewrite run_bind. cbn [log_example_rows logging run].
  rewrite run_bind.
  match goal with
  | |- context [run (get_postgres_engine w) ?s] =>
      pose proof (keeps_tables_get_postgres_engine w s) as Hst2;
      destruct (run (get_postgres_engine w) s) as [[engine|?] st2]
  end; cbn [snd tables] in Hst2.
  2: { cbn [snd]. congruence. }
  rewrite run_bind. cbn. congruence.
Qed.

(** ** The dates *)

Lemma col_index_lt name cols i : col_index name cols = Some i -> (i < length cols)%nat.
Proof. intros H%col_index_Some. by apply lookup_lt_Some in H. Qed.

(** [X7] [convert_date_format]: without a [Date (UTC)] column it returns
    the table as it is and logs a warning; when the date parser raises,
    it raises the same exception and logs nothing; and when the parser
    returns one date per row, it returns the table with the same
    columns and as many rows, each row having its date in the
    [Date (UTC)] cell and its other cells unchanged. *)
Theorem convert_date_format_spec (w : Env) (df : DataFrame) (st : state) :
  (col_index "Date (UTC)" (columns df) = None ->
   run (convert_date_format w df) st =
     (Ok df, mkState (log st ++ [LogDateColumnMissing]) (tables st)))
  /\ (forall j e,
        col_index "Date (UTC)" (columns df) = Some j ->
        pd_to_datetime w (cell j <$> rows df) = Raise e ->
        run (convert_date_format w df) st = (Raise e, st))
  /\ (forall j dates,
        col_index "Date (UTC)" (columns df) = Some j ->
        pd_to_datetime w (cell j <$> rows df) = Ok dates ->
        length dates = length (rows df) ->
        wf_df df ->
        exists out : DataFrame,
          run (convert_date_format w df) st =
            (Ok out, mkState (log st ++ [LogDateConverted]) (tables st))
          /\ columns out = columns df
          /\ length (rows out) = length (rows df)
          /\ forall n r d,
               rows df !! n = Some r -> dates !! n = Some d ->
               exists r', rows out !! n = Some r'
                 /\ length r' = length r
                 /\ cell j r' = d
                 /\ forall j', j' <> j -> cell j' r' = cell j' r).
Proof.
  unfold convert_date_format. split; [by intros ->|]. split.
  - intros j e -> He. rewrite run_bind. cbn [lift run]. by rewrite He.
  - intros j dates Hj Hd Hlen Hwf. rewrite Hj. eexists.
    split; [rewrite run_bind; cbn [lift run]; by rewrite Hd|].
    cbn [set_column columns rows]. split; [done|].
    split; [rewrite length_zip_with; lia|].
    intros n r d Hr Hdn. exists (<[j := d]> r).
    split. { rewrite lookup_zip_with. unfold row in *. rewrite Hr; cbn; by rewrite Hdn. }
    split; [by rewrite length_insert|].
    assert (j < length r)%nat as Hjr.
    { unfold wf_df in Hwf. rewrite Forall_forall in Hwf.
      rewrite (Hwf r) by (by eapply list_elem_of_lookup_2).
      by eapply col_index_lt. }
    unfold cell, row in *. split.
    + by rewrite list_lookup_insert_eq.
    + intros j' Hne. by rewrite list_lookup_insert_ne.
Qed.

(** ** Saving a table *)


(** ** The user collapse, again *)

Lemma group_rows_sorted (i : nat) (l : list row) :
  StronglySorted scalar_lt (cell i <$> l) ->
  Forall (fun r => cell i r <> VNaN) l ->
  group_rows i l = (fun r => (cell i r, [r])) <$> l.
Proof.
  induction l as [|r l IH]; intros Hs Hna; [done|].
  cbn [fmap list_fmap] in Hs. apply StronglySorted_cons in Hs as [Hall Hs].
  apply Forall_cons in Hna as [Hr Hna].
  cbn [group_rows]. rewrite IH by done.
  assert (isna (cell i r) = false) as -> by (by destruct (cell i r)).
  destruct l as [|r' l]; [done|].
  cbn [fmap list_fmap add_to_group] in *.
  apply Forall_cons in Hall as [Hlt _].
  rewrite decide_False by (by apply scalar_lt_ne).
  by rewrite decide_True.
Qed.

Lemma last_valid_singleton (v : scalar) : last_valid [v] = v.
Proof. by destruct v. Qed.

(** [X9] The user collapse is idempotent: applied to its own result it
    returns that result. *)
Theorem collapse_users_idempotent (df : DataFrame) (i jn je : nat) :
  col_index "Customer ID" (columns df) = Some i ->
  col_index "Customer Name" (columns df) = Some jn ->
  col_index "Customer Email" (columns df) = Some je ->
  exists out : DataFrame,
    collapse_users df = Ok out /\ collapse_users out = Ok out.
Proof.
  intros Hi Hjn Hje.
  destruct (group_rows_inv i (rows df)) as (Hs & Hk & _).
  eexists. split; [by apply (collapse_users_groups df i jn je)|].
  rewrite (collapse_users_groups _ 0 1 2) by done.
  cbn [rows]. do 2 f_equal.
  rewrite group_rows_sorted; cycle 1.
  - rewrite <- list_fmap_compose.
    by change (cell 0 ∘ _) with (fst : scalar * list row -> scalar).
  - apply Forall_fmap, Forall_forall. intros g Hg. cbn.
    assert (g.1 ∈ (group_rows i (rows df)).*1) as Hin by (by apply list_elem_of_fmap_2).
    by apply Hk in Hin as [? _].
  - rewrite <- !list_fmap_compose.
    apply Forall_fmap_ext_1, Forall_forall. intros g _. cbn.
    by rewrite !last_valid_singleton.
Qed.

(** ** What [ingest_data] does not absorb *)

Lemma collapse_users_raises (df : DataFrame) :
  col_index "Customer ID" (columns df) = None \/
  col_index "Customer Name" (columns df) = None \/
  col_index "Customer Email" (columns df) = None ->
  raises (collapse_users df).
Proof.
  unfold collapse_users, groupby_agg_last. intros Hmissing.
  destruct (col_index "Customer ID" (columns df)); [|done].
  cbn [mapM].
  destruct (col_index "Customer Name" (columns df)); [|done].
  destruct (col_index "Customer Email" (columns df)); [|done].
  naive_solver.
Qed.

(** [X10] Only a file that cannot be loaded is absorbed by [ingest_data].
    When the users file is loaded and lacks one of the columns
    [Customer ID], [Customer Name] and [Customer Email], [ingest_data]
    raises; and when the transactions file is loaded with a [Date (UTC)]
    column that the date parser rejects, [ingest_data] raises the
    parser's exception. *)
Theorem ingest_data_hard_failures (w : Env) (pf tf uf : string) (st : state) :
  (forall df,
      os_path_exists w uf = true -> pd_read_csv w uf tab = Ok df ->
      col_index "Customer ID" (columns df) = None \/
      col_index "Customer Name" (columns df) = None \/
      col_index "Customer Email" (columns df) = None ->
      crashes (ingest_data w pf tf uf) st)
  /\ (forall df j e,
        os_path_exists w tf = true -> pd_read_csv w tf tab = Ok df ->
        col_index "Date (UTC)" (columns df) = Some j ->
        pd_to_datetime w (cell j <$> rows df) = Raise e ->
        (run (ingest_data w pf tf uf) st).1 = Raise e).
Proof.
  split.
  - intros df Hex Hread Hcols. unfold crashes, ingest_data.
    rewrite run_bind.
    destruct (run (load_tsv_file w pf tab) st) as [[vp|?] st1]; [|done].
    rewrite run_bind.
    destruct (run (load_tsv_file w tf tab) st1) as [[vt|?] st2]; [|done].
    rewrite run_bind, load_tsv_file_run, Hex, Hread.
    rewrite run_bind.
    destruct (run (match vt with Some d => _ | None => _ end) _)
      as [[vt'|?] st4]; [|done].
    rewrite run_bind.
    destruct (run (match vp with Some d => _ | None => _ end) _)
      as [[vp'|?] st5]; [|done].
    rewrite run_bind.
    destruct (run (match vt' with Some d => _ | None => _ end) _)
      as [[vt''|?] st6]; [|done].
    rewrite !run_bind. unfold remove_duplicates. cbv zeta.
    rewrite ?run_bind. cbn [run logging mret Py_ret].
    unfold fmap, Py_fmap. cbn [run lift].
    pose proof (collapse_users_raises (drop_duplicates df) Hcols) as Hraise.
    by destruct (collapse_users (drop_duplicates df)).
  - intros df j e Hex Hread Hj He. unfold ingest_data.
    rewrite run_bind.
    destruct (run (load_tsv_file w pf tab) st) as [[vp|?] st1] eqn:Hp; cycle 1.
    { rewrite load_tsv_file_run in Hp. by repeat case_match. }
    rewrite run_bind, load_tsv_file_run, Hex, Hread.
    rewrite run_bind.
    destruct (run (load_tsv_file w uf tab) _) as [[vu|?] st3] eqn:Hu; cycle 1.
    { rewrite load_tsv_file_run in Hu. by repeat case_match. }
    rewrite run_bind. unfold fmap at 1, Py_fmap at 1. cbn [run].
    unfold convert_date_format. rewrite Hj, run_bind. cbn [run lift].
    by rewrite He.
Qed.

(** ** A complete run *)

(** What [ingest_data] returns when the three files are read and the
    dates parse: the products without duplicates, the transactions with
    their dates converted and without duplicates, and the collapsed
    users. *)
Lemma ingest_data_returns (w : Env) (pf tf uf : string) (st : state)
    (products transactions users users_df : DataFrame) (jd : nat)
    (dates : list scalar) :
  os_path_exists w pf = true -> pd_read_csv w pf tab = Ok products ->
  os_path_exists w tf = true -> pd_read_csv w tf tab = Ok transactions ->
  os_path_exists w uf = true -> pd_read_csv w uf tab = Ok users ->
  col_index "Date (UTC)" (columns transactions) = Some jd ->
  pd_to_datetime w (cell jd <$> rows transactions) = Ok dates ->
  collapse_users (drop_duplicates users) = Ok users_df ->
  (run (ingest_data w pf tf uf) st).1 =
    Ok (Some (drop_duplicates products),
        Some (drop_duplicates (set_column jd dates transactions)),
        Some users_df).
Proof.
  intros Hpe Hp Hte Ht Hue Hu Hjd Hdates Hcollapse. unfold ingest_data.
  rewrite run_bind, load_tsv_file_run, Hpe, Hp.
  rewrite run_bind, load_tsv_file_run, Hte, Ht.
  rewrite run_bind, load_tsv_file_run, Hue, Hu.
  rewrite run_bind. unfold fmap at 1, Py_fmap at 1. cbn [run].
  unfold convert_date_format. rewrite Hjd, run_bind. cbn [run lift].
  rewrite Hdates. rewrite run_bind. cbn [run logging mret Py_ret].
  rewrite run_bind. unfold fmap at 1, Py_fmap at 1. cbn [run].
  unfold remove_duplicates at 1. cbv zeta. rewrite run_bind.
  cbn [run logging mret Py_ret].
  rewrite run_bind. unfold fmap at 1, Py_fmap at 1. cbn [run].
  unfold remove_duplicates at 1. cbv zeta. rewrite run_bind.
  cbn [run logging mret Py_ret].
  rewrite run_bind, run_bind.
  unfold remove_duplicates at 1. cbv zeta. rewrite run_bind.
  cbn [run logging mret Py_ret].
  unfold fmap at 1, Py_fmap at 1. cbn [run lift]. rewrite Hcollapse.
  reflexivity.
Qed.

(** A call of [save_to_postgres] that goes through, with its key. *)
Lemma save_to_postgres_run (w : Env) (engine : Engine) (df : DataFrame)
    (table_name : string) (c : string) (cs : list string) (st : state) :
  engine_connect w engine = Ok tt ->
  check_primary_key table_name (c :: cs) (standardize_column_names df) = Ok tt ->
  run (save_to_postgres w engine (Some df) table_name (Some (c :: cs))) st =
    (Ok tt,
     mkState (log st ++ [LogSaved table_name] ++
              [LogPrimaryKey (String.concat ", " (c :: cs)) table_name])
             (<[table_name := mkTable (standardize_column_names df) (Some (c :: cs))]>
                (tables st))).
Proof.
  intros Hc Hpk. unfold save_to_postgres.
  rewrite run_bind. cbn [lift run getattr fmap result_fmap bind].
  unfold to_sql. rewrite !run_bind. cbn [lift run].
  rewrite Hc. cbn [run]. rewrite run_bind. cbn [run logging].
  unfold add_primary_key. rewrite !run_bind. cbn [lift run].
  rewrite Hc. cbn [run tables]. rewrite lookup_insert_eq. cbn [tbl_frame].
  rewrite Hpk. cbn [run logging log tables]. rewrite insert_insert_eq.
  by rewrite <- app_assoc.
Qed.


(** ** Which tables [ingest_data] returns *)

Lemma load_tsv_file_None (w : Env) (file_path : string) (st st' : state)
    (v : option DataFrame) :
  run (load_tsv_file w file_path tab) st = (Ok v, st') ->
  (v = None <-> absent w file_path).
Proof.
  rewrite load_tsv_file_run. unfold absent.
  destruct (os_path_exists w file_path).
  - destruct (pd_read_csv w file_path tab) as [df|e]; intros [= <- _].
    + split; [done|]. by intros [?|[e ?]].
    + split; [|done]. intros _. right. by exists e.
  - intros [= <- _]. split; [|done]. intros _. by left.
Qed.

Lemma fmap_Some_None {A} (m : Py A) (st st' : state) (v : option A) :
  run (Some <$> m) st = (Ok v, st') -> v <> None.
Proof.
  unfold fmap, Py_fmap. cbn [run].
  destruct (run m st) as [[a|e] st1]; by intros [= <- _].
Qed.

(** [X12] When [ingest_data] returns, the tables it returns as [None]
    are exactly those whose load was absent (the file did not exist or
    could not be read): cleaning never loses a table that was loaded and
    never produces one that was not. *)
Theorem ingest_data_None_iff_absent (w : Env) (pf tf uf : string) (st st' : state)
    (p t u : option DataFrame) :
  run (ingest_data w pf tf uf) st = (Ok (p, t, u), st') ->
  (p = None <-> absent w pf) /\ (t = None <-> absent w tf) /\
  (u = None <-> absent w uf).
Proof.
  unfold ingest_data. intros H.
  rewrite run_bind in H.
  destruct (run (load_tsv_file w pf tab) st) as [[vp|?] st1] eqn:Hp; [|done].
  rewrite run_bind in H.
  destruct (run (load_tsv_file w tf tab) st1) as [[vt|?] st2] eqn:Ht; [|done].
  rewrite run_bind in H.
  destruct (run (load_tsv_file w uf tab) st2) as [[vu|?] st3] eqn:Hu; [|done].
  apply load_tsv_file_None in Hp, Ht, Hu.
  rewrite <- Hp, <- Ht, <- Hu. clear Hp Ht Hu.
  rewrite run_bind in H.
  destruct (run (match vt with Some df => _ | None => _ end) st3)
    as [[vt'|?] st4] eqn:Ht'; [|done].
  assert (vt = None <-> vt' = None) as Hvt'.
  { destruct vt; [|cbn in Ht'; by simplify_eq].
    apply fmap_Some_None in Ht'. by split. }
  rewrite run_bind in H.
  destruct (run (match vp with Some df => _ | None => _ end) st4)
    as [[vp'|?] st5] eqn:Hp'; [|done].
  assert (vp = None <-> vp' = None) as Hvp'.
  { destruct vp; [|cbn in Hp'; by simplify_eq].
    apply fmap_Some_None in Hp'. by split. }
  rewrite run_bind in H.
  destruct (run (match vt' with Some df => _ | None => _ end) st5)
    as [[vt''|?] st6] eqn:Ht''; [|done].
  assert (vt' = None <-> vt'' = None) as Hvt''.
  { destruct vt'; [|cbn in Ht''; by simplify_eq].
    apply fmap_Some_None in Ht''. by split. }
  rewrite run_bind in H.
  destruct (run (match vu with Some df => _ | None => _ end) st6)
    as [[vu'|?] st7] eqn:Hu'; [|done].
  assert (vu = None <-> vu' = None) as Hvu'.
  { destruct vu; [|cbn in Hu'; by simplify_eq].
    rewrite run_bind in Hu'.
    destruct (run (remove_duplicates d "users_df") st6) as [[d'|?] st6']; [|done].
    apply fmap_Some_None in Hu'. by split. }
  cbn in H. simplify_eq. tauto.
Qed.

(** ** Keys the server refuses *)

Lemma NoDup_lookup_eq {A} (l : list A) (n m : nat) (x : A) :
  NoDup l -> l !! n = Some x -> l !! m = Some x -> n = m.
Proof. intros Hnd Hn Hm. by eapply NoDup_lookup. Qed.


(** ** The hypotheses of the further properties, on examples *)





Lemma main_writes_nothing_without_a_source_witness :
  tables (run (main env_without_transactions) initial_state).2 =
  tables initial_state.
Proof.
  apply main_writes_nothing_without_a_source.
  right; left. left. reflexivity.
Defined.

Lemma collapse_users_idempotent_witness :
  exists out : DataFrame,
    collapse_users example_duplicate_users = Ok out /\ collapse_users out = Ok out.
Proof.
  apply (collapse_users_idempotent example_duplicate_users 0%nat 1%nat 2%nat); reflexivity.
Defined.


Lemma ingest_data_None_iff_absent_witness :
  (Some (mkDF ["Subscription ID"; "Plan"] [[VInt 1; VStr "basic"]]) = None
   <-> absent env_without_transactions "input/products.csv")
  /\ (@None DataFrame = None
      <-> absent env_without_transactions "input/transactions.csv")
  /\ (Some (mkDF user_columns [[VInt 1; VStr "Alice"; VStr "a@x"]]) = None
      <-> absent env_without_transactions "input/users.csv").
Proof.
  apply (ingest_data_None_iff_absent env_without_transactions
           "input/products.csv" "input/transactions.csv" "input/users.csv"
           initial_state
           (mkState [LogLoaded 1 "input/products.csv";
                     LogFileMissing "input/transactions.csv";
                     LogLoaded 1 "input/users.csv"; LogRemoved 0 1 "products_df";
                     LogRemoved 0 1 "users_df"] ∅)).
  by vm_compute.
Defined.

